(** * brainiac: doc/benchmark_generate_charts.py

    A shallow embedding of the chart generator: the two platform-section
    searches, the benchmark-line pattern with [re.findall], the category
    classifier and table builder of [parse_section], and the two chart
    functions [create_bar_chart] and [create_speedup_chart].

    The file is a script: the module-level statements run in order, the
    four bar charts and the two speedup charts are written one after the
    other, and an uncaught exception ends the run.  Drawing itself is
    matplotlib's; a chart is recorded as the sequence of [bar] and
    [annotate] calls made on its axes.  Of matplotlib's own exceptions
    one is kept, the [OverflowError] of [ax.bar] for an int height
    outside int64; titles and file names are taken as ones it accepts.

    Conventions of the embedding.
    - A Python [str] is a [string]; a character is the code point it
      denotes, restricted to 0..255.  The classes [\w], [\s], [\d] and [.]
      are the ones Python's [re] uses for [str] patterns on that range.
    - A Python [int] is a [Z], unbounded; [int] converts a text of at
      most 4300 digits, the interpreter's default cap.  An optimisation
      level, the [int] of one character, is a [nat].
    - A Python [float] is the rational its binary64 is: the quotient
      [a / b] of two ints is rounded to the nearest binary64, ties to
      even.  The positions and widths of the bars, which no statement
      depends on beyond their being distinct, are left unrounded.
    - An uncaught exception is a value [Raise e]; the script stops at the
      first one. *)

From Stdlib Require Import ZArith QArith Qabs Lqa Ascii String.
From stdpp Require Import gmap strings list fin_maps pretty sorting.

Local Open Scope string_scope.
Local Open Scope list_scope.

(** ** Exceptions and the result type *)

Inductive exn :=
| AttributeError   (* [None.group(0)] *)
| ValueError       (* [int(s)] on a non-number *)
| IndexError       (* string index out of range *)
| KeyError         (* missing dict key *)
| ZeroDivisionError
| OverflowError.   (* a number too large for a float or an int64 *)

Inductive result (A : Type) :=
| Ok (a : A)
| Raise (e : exn).
Arguments Ok {A} a.
Arguments Raise {A} e.

Definition rbind {A B} (m : result A) (f : A -> result B) : result B :=
  match m with
  | Ok a => f a
  | Raise e => Raise e
  end.

Notation "x <-r m ;; k" := (rbind m (fun x => k))
  (at level 100, m at next level, right associativity).

(** ** Strings *)

Module Str.

(** [s.startswith(p)], returning what follows the prefix. *)
Fixpoint strip_prefix (p s : string) : option string :=
  match p with
  | EmptyString => Some s
  | String a p' =>
      match s with
      | String b s' => if Ascii.eqb a b then strip_prefix p' s' else None
      | EmptyString => None
      end
  end.

(** [needle in s] *)
Fixpoint contains (needle s : string) : bool :=
  match strip_prefix needle s with
  | Some _ => true
  | None =>
      match s with
      | String _ s' => contains needle s'
      | EmptyString => false
      end
  end.

(** Index of the first occurrence of [needle] in [s] ([s.find(needle)]). *)
Fixpoint find (needle s : string) : option nat :=
  match strip_prefix needle s with
  | Some _ => Some 0
  | None =>
      match s with
      | String _ s' => S <$> find needle s'
      | EmptyString => None
      end
  end.

(** The suffix of [s] that starts at the first occurrence of [needle],
    empty when there is none. *)
Fixpoint from_first (needle s : string) : string :=
  match strip_prefix needle s with
  | Some _ => s
  | None =>
      match s with
      | String _ s' => from_first needle s'
      | EmptyString => EmptyString
      end
  end.

(** [s[:n]] and [s[n:]] for [n >= 0]. *)
Fixpoint take (n : nat) (s : string) : string :=
  match n, s with
  | S n', String c s' => String c (take n' s')
  | _, _ => EmptyString
  end.

Fixpoint drop (n : nat) (s : string) : string :=
  match n, s with
  | S n', String _ s' => drop n' s'
  | _, _ => s
  end.

(** [s[-k]] for [k >= 1]: [IndexError] when [s] has fewer than [k]
    characters. *)
Definition from_end (k : nat) (s : string) : result ascii :=
  if decide (1 <= k <= String.length s)
  then match String.get (String.length s - k) s with
       | Some c => Ok c
       | None => Raise IndexError
       end
  else Raise IndexError.

End Str.

(** ** Character classes of Python's [re] on code points 0..255 *)

Definition code (c : ascii) : nat := nat_of_ascii c.

Definition in_range (lo hi : nat) (c : ascii) : bool :=
  (lo <=? code c)%nat && (code c <=? hi)%nat.

(** [\d] *)
Definition is_digit (c : ascii) : bool := in_range 48 57 c.

(** [\s] *)
Definition is_space (c : ascii) : bool :=
  in_range 9 13 c || in_range 28 32 c || (code c =? 133)%nat || (code c =? 160)%nat.

(** [\w]: alphanumeric or underscore. *)
Definition is_word (c : ascii) : bool :=
  in_range 48 57 c || in_range 65 90 c || (code c =? 95)%nat || in_range 97 122 c
  || (code c =? 170)%nat || in_range 178 179 c || (code c =? 181)%nat
  || in_range 185 186 c || in_range 188 190 c || in_range 192 214 c
  || in_range 216 246 c || in_range 248 255 c.

(** [.] without flags: anything but a newline. *)
Definition not_newline (c : ascii) : bool := negb (code c =? 10)%nat.

(** [.] under [re.DOTALL] *)
Definition any_char (c : ascii) : bool := true.

(** ** A backtracking matcher for the pattern fragment the script uses *)

Module Re.

Inductive regex :=
| Lit (s : string)                 (* literal text *)
| Cls (p : ascii -> bool)          (* one character of a class *)
| Seq (r1 r2 : regex)              (* r1 r2 *)
| Alt (r1 r2 : regex)              (* r1|r2, left first *)
| Star (p : ascii -> bool)         (* c*  greedy *)
| Plus (p : ascii -> bool)         (* c+  greedy *)
| LazyStar (p : ascii -> bool)     (* c*? *)
| Grp (n : nat) (r : regex)        (* capturing group number n *)
| NonCap (r : regex)               (* (?:r) *)
| Ahead (r : regex)                (* (?=r) *)
| EndZ.                            (* \Z *)

(** The text consumed between the input [s] and its suffix [s']. *)
Definition consumed (s s' : string) : string :=
  Str.take (String.length s - String.length s') s.

Section Repeat.
Context {R : Type}.

(** Greedy repetition: take as many as possible, give back one at a
    time while the continuation fails. *)
Fixpoint rep_greedy (p : ascii -> bool) (s : string)
    (k : string -> option R) : option R :=
  match s with
  | String c s' =>
      if p c then
        match rep_greedy p s' k with
        | Some x => Some x
        | None => k s
        end
      else k s
  | EmptyString => k s
  end.

(** Lazy repetition: try the continuation first, take one more
    character only when it fails. *)
Fixpoint rep_lazy (p : ascii -> bool) (s : string)
    (k : string -> option R) : option R :=
  match k s with
  | Some x => Some x
  | None =>
      match s with
      | String c s' => if p c then rep_lazy p s' k else None
      | EmptyString => None
      end
  end.
End Repeat.

(** [run r s g k]: match [r] at the head of [s] with the groups [g] set
    so far, then continue with [k] on the rest; [None] makes the matcher
    backtrack into the last choice point. *)
Fixpoint run {R : Type} (r : regex) (s : string) (g : gmap nat string)
    (k : string -> gmap nat string -> option R) {struct r} : option R :=
  match r with
  | Lit l =>
      match Str.strip_prefix l s with
      | Some s' => k s' g
      | None => None
      end
  | Cls p =>
      match s with
      | String c s' => if p c then k s' g else None
      | EmptyString => None
      end
  | Seq r1 r2 => run r1 s g (fun s' g' => run r2 s' g' k)
  | Alt r1 r2 =>
      match run r1 s g k with
      | Some x => Some x
      | None => run r2 s g k
      end
  | Star p => rep_greedy p s (fun s' => k s' g)
  | Plus p =>
      match s with
      | String c s' => if p c then rep_greedy p s' (fun s'' => k s'' g) else None
      | EmptyString => None
      end
  | LazyStar p => rep_lazy p s (fun s' => k s' g)
  | Grp n r1 => run r1 s g (fun s' g' => k s' (<[n := consumed s s']> g'))
  | NonCap r1 => run r1 s g k
  | Ahead r1 =>
      match run r1 s g (fun _ g' => Some g') with
      | Some g' => k s g'
      | None => None
      end
  | EndZ =>
      match s with
      | EmptyString => k s g
      | String _ _ => None
      end
  end.

(** A match object: the matched text ([group(0)]) and the groups. *)
Record match_obj := { group0 : string; groups : gmap nat string }.

(** One attempt at the head of [s]. *)
Definition match_here (r : regex) (s : string) : option match_obj :=
  run r s ∅ (fun s' g => Some {| group0 := consumed s s'; groups := g |}).

(** [re.search(r, s)]: the match at the leftmost position that has one. *)
Fixpoint search (r : regex) (s : string) : option match_obj :=
  match match_here r s with
  | Some m => Some m
  | None =>
      match s with
      | String _ s' => search r s'
      | EmptyString => None
      end
  end.

(** [m.group(0)] on the result of [re.search]: [None] has no attribute
    [group]. *)
Definition search_group0 (r : regex) (s : string) : result string :=
  match search r s with
  | Some m => Ok (group0 m)
  | None => Raise AttributeError
  end.

(** [m.group(n)]; a group that took no part in the match reads as the
    empty string in [findall]. *)
Definition group (n : nat) (m : match_obj) : string :=
  default "" (groups m !! n).

(** [re.findall(r, s)] for a pattern with two groups: the non-overlapping
    matches from left to right, each as the pair of its groups.  [skip]
    counts the characters of the previous match still to step over.  An
    empty match steps one character on. *)
Fixpoint findall_from (r : regex) (skip : nat) (s : string) : list (string * string) :=
  match skip with
  | S n =>
      match s with
      | String _ s' => findall_from r n s'
      | EmptyString => []
      end
  | O =>
      match match_here r s with
      | Some m =>
          (group 1 m, group 2 m) ::
          match s with
          | String _ s' => findall_from r (pred (String.length (group0 m))) s'
          | EmptyString => []
          end
      | None =>
          match s with
          | String _ s' => findall_from r 0 s'
          | EmptyString => []
          end
      end
  end.

Definition findall (r : regex) (s : string) : list (string * string) :=
  findall_from r 0 s.

End Re.

Import Re.

Infix "⋅r" := Seq (at level 41, right associativity).

(** ** The three patterns of the script *)

(** [r"x86_64.*?(?=riscv64|\Z)"] with [re.DOTALL] *)
Definition x86_pattern : regex :=
  Lit "x86_64" ⋅r LazyStar any_char ⋅r Ahead (Alt (Lit "riscv64") EndZ).

(** [r"riscv64.*"] with [re.DOTALL] *)
Definition riscv_pattern : regex :=
  Lit "riscv64" ⋅r Star any_char.

(** [r"(\w+(?:\s+-O\d+|\s+.*?transpile_O\d+\.c))\s+(\d+)ms"] *)
Definition pattern : regex :=
  Grp 1 (Plus is_word ⋅r
         NonCap (Alt (Plus is_space ⋅r Lit "-O" ⋅r Plus is_digit)
                     (Plus is_space ⋅r LazyStar not_newline ⋅r
                      Lit "transpile_O" ⋅r Plus is_digit ⋅r Lit ".c")))
  ⋅r Plus is_space ⋅r Grp 2 (Plus is_digit) ⋅r Lit "ms".

(** ** Python numbers *)

Inductive pynum :=
| PyInt (z : Z)
| PyFloat (q : Q).   (* a binary64, as the rational it is *)

(** [int(c)] for a one-character string [c]: only a decimal digit
    converts. *)
Definition int_of_char (c : ascii) : result nat :=
  if is_digit c then Ok (code c - 48) else Raise ValueError.

(** [int(s)] on the texts it gets here: group 2 of [pattern] is [\d+],
    a non-empty run of decimal digits.  Any other text is reported as
    [ValueError], and so is a run of more than 4300 digits. *)
Fixpoint int_digits (acc : Z) (s : string) : result Z :=
  match s with
  | EmptyString => Ok acc
  | String c s' =>
      if is_digit c then int_digits (10 * acc + Z.of_nat (code c - 48)) s'
      else Raise ValueError
  end.

(** CPython's default limit on the digits of a text that [int] converts
    ([sys.int_max_str_digits]); leading zeros count. *)
Definition int_max_str_digits : nat := 4300.

Definition int_of_string (s : string) : result Z :=
  match s with
  | EmptyString => Raise ValueError
  | String _ _ =>
      if (int_max_str_digits <? String.length s)%nat then Raise ValueError
      else int_digits 0 s
  end.

(** The least magnitude that rounds beyond the largest binary64. *)
Definition float_overflow : Z := (2 ^ 1024 - 2 ^ 970)%Z.

(** Rounding a quotient of non-negative ints to the nearest integer, a
    tie to the even one. *)
Definition round_half_even (num den : Z) : Z :=
  let q := (num / den)%Z in
  let r := (num mod den)%Z in
  if (2 * r <? den)%Z then q
  else if (den <? 2 * r)%Z then (q + 1)%Z
  else if Z.even q then q else (q + 1)%Z.

(** [n / (d * 2^e)] as a fraction of ints. *)
Definition scale (n d e : Z) : Z * Z :=
  if (0 <=? e)%Z then (n, d * 2 ^ e)%Z else (n * 2 ^ (- e), d)%Z.

(** The exponent of the last place of the binary64 nearest to [n / d]
    for positive [n], [d]: the 53-bit significand is [n / (d * 2^e)]
    rounded, and subnormals stop at [2^-1074]. *)
Definition last_place (n d : Z) : Z :=
  let e0 := (Z.log2 n - Z.log2 d - 52)%Z in
  let '(n0, d0) := scale n d e0 in
  let e1 := if (n0 <? 2 ^ 52 * d0)%Z then (e0 - 1)%Z else e0 in
  Z.max e1 (-1074).

(** The binary64 nearest to [a / b], ties to even, as the rational it
    is. *)
Definition binary64_of_quotient (a b : Z) : Q :=
  let n := Z.abs a in
  let d := Z.abs b in
  if (n =? 0)%Z then 0%Q
  else
    let e := last_place n d in
    let '(n1, d1) := scale n d e in
    let m := (Z.sgn a * Z.sgn b * round_half_even n1 d1)%Z in
    Qred (if (0 <=? e)%Z then inject_Z (m * 2 ^ e) else m # Z.to_pos (2 ^ (- e))).

(** [a / b] on ints: true division.  The result is the correctly rounded
    quotient; a zero divisor raises [ZeroDivisionError], a quotient with
    no binary64 raises [OverflowError]. *)
Definition true_div (a b : Z) : result pynum :=
  if (b =? 0)%Z then Raise ZeroDivisionError
  else if (float_overflow * Z.abs b <=? Z.abs a)%Z then Raise OverflowError
  else Ok (PyFloat (binary64_of_quotient a b)).

(** [v == 0] *)
Definition is_zero (v : pynum) : bool :=
  match v with
  | PyInt z => (z =? 0)%Z
  | PyFloat q => Qeq_bool q 0
  end.

(** ** Dictionaries *)

(** [d[k]] *)
Definition getitem `{Countable K} {V} (d : gmap K V) (k : K) : result V :=
  match d !! k with
  | Some v => Ok v
  | None => Raise KeyError
  end.

(** [sorted(d.keys())] for int keys *)
Definition sorted_keys {V} (d : gmap nat V) : list nat :=
  merge_sort Nat.le (elements (dom d)).

(** The cell of a table: [data[level][category]] when both keys exist. *)
Definition cell (data : gmap nat (gmap string Z)) (level : nat) (category : string)
    : option Z :=
  data !! level ≫= (.!! category).

(** ** Loops *)

Fixpoint foldM {A S} (f : S -> A -> result S) (l : list A) (s : S) : result S :=
  match l with
  | [] => Ok s
  | x :: l' => s' <-r f s x ;; foldM f l' s'
  end.

Fixpoint mapM {A B} (f : A -> result B) (l : list A) : result (list B) :=
  match l with
  | [] => Ok []
  | x :: l' => y <-r f x ;; ys <-r mapM f l' ;; Ok (y :: ys)
  end.

(** [enumerate(l)] *)
Definition enumerate {A} (l : list A) : list (nat * A) := imap pair l.

(** ** Extracting the platform sections (lines 12-13) *)

Definition x86_section (content : string) : result string :=
  search_group0 x86_pattern content.

Definition riscv_section (content : string) : result string :=
  search_group0 riscv_pattern content.

(** ** [parse_section] (lines 16-42) *)

(** Lines 23-36: the category and the optimisation level of a method
    description; [None] is the [continue] branch. *)
Definition classify (method : string) : result (option (string * nat)) :=
  if Str.contains "interpret" method then
    c <-r Str.from_end 1 method ;; opt_level <-r int_of_char c ;;
    Ok (Some ("interpreter", opt_level))
  else if Str.contains "compile" method then
    c <-r Str.from_end 1 method ;; opt_level <-r int_of_char c ;;
    Ok (Some ("native", opt_level))
  else if Str.contains "gcc" method then
    c <-r Str.from_end 3 method ;; opt_level <-r int_of_char c ;;
    Ok (Some ("gcc", opt_level))
  else if Str.contains "clang" method then
    c <-r Str.from_end 3 method ;; opt_level <-r int_of_char c ;;
    Ok (Some ("clang", opt_level))
  else Ok None.

(** Lines 38-40: [data[opt_level][category] = int(time)], the row
    created first when the level is new. *)
Definition store (data : gmap nat (gmap string Z)) (opt_level : nat)
    (category time : string) : result (gmap nat (gmap string Z)) :=
  let data1 :=
    match data !! opt_level with
    | None => <[opt_level := ∅]> data
    | Some _ => data
    end in
  t <-r int_of_string time ;;
  row <-r getitem data1 opt_level ;;
  Ok (<[opt_level := <[category := t]> row]> data1).

(** The body of the loop over the matches. *)
Definition parse_match (data : gmap nat (gmap string Z)) (m : string * string)
    : result (gmap nat (gmap string Z)) :=
  let '(method, time) := m in
  cl <-r classify method ;;
  match cl with
  | None => Ok data
  | Some (category, opt_level) => store data opt_level category time
  end.

Definition parse_matches (matches : list (string * string))
    : result (gmap nat (gmap string Z)) :=
  foldM parse_match matches ∅.

Definition parse_section (section : string) : result (gmap nat (gmap string Z)) :=
  parse_matches (findall pattern section).

(** ** Plot settings (lines 49-65) *)

Definition save_dir : string := "doc".

(** [os.path.join(a, b)] with the POSIX separator: an absolute [b]
    replaces [a]. *)
Definition path_join (a b : string) : string :=
  if String.prefix "/" b then b
  else if (String.length a =? 0)%nat then b
  else match String.get (String.length a - 1) a with
       | Some "/"%char => a +:+ b
       | _ => a +:+ "/" +:+ b
       end.

Definition colors : gmap string string :=
  {[ "interpreter" := "#e13b59"; "native" := "#f3ba14";
     "gcc" := "#59a14f"; "clang" := "#4e79a6" ]}.

Definition labels : gmap string string :=
  {[ "interpreter" := "brainiac --interpret"; "native" := "brainiac --compile";
     "gcc" := "gcc -O3"; "clang" := "clang -O3" ]}.

(** ** Charts *)

(** The text of an annotation: [f"{value}"] for an int, and
    [f"{value:.1f}x"] kept symbolic for a float. *)
Inductive text :=
| Plain (s : string)
| OneDecimalX (v : pynum).

(** The calls made on the axes, in order. *)
Inductive call :=
| Bar (x : Q) (height : pynum) (width : Q) (label color : string)
| Annotate (t : text) (x : Q) (y : pynum).

Record chart := {
  chart_file : string;
  chart_title : string;
  chart_yticks : option (list Z);
  chart_xticklabels : list string;
  chart_calls : list call
}.

(** [np.arange(0, stop, step)] for positive ints *)
Definition arange (stop step : Z) : list Z :=
  (fun i => Z.of_nat i * step)%Z <$> seq 0 (Z.to_nat ((stop + step - 1) / step)).

(** [i + (j - num_bars_per_group/2 + 0.5) * bar_width]; positions and
    widths are given as the exact rationals the floats approximate. *)
Definition x_pos (num_bars_per_group : nat) (bar_width : Q) (i j : nat) : Q :=
  (inject_Z (Z.of_nat i)
   + (inject_Z (Z.of_nat j) - inject_Z (Z.of_nat num_bars_per_group) / 2 + (1 # 2))
     * bar_width)%Q.

Definition group_width : Q := (8 # 10)%Q.

(** [group_width / num_bars_per_group]: float division, which raises on
    a zero count. *)
Definition bar_width_of (num_bars_per_group : nat) : result Q :=
  if (num_bars_per_group =? 0)%nat then Raise ZeroDivisionError
  else Ok (group_width / inject_Z (Z.of_nat num_bars_per_group))%Q.

(** [f"O{opt}"] *)
Definition xticklabel (opt : nat) : string := "O" +:+ pretty opt.

(** Line 70: the categories a bar chart draws. *)
Definition bar_categories (include_interpreter : bool) : list string :=
  if include_interpreter then ["interpreter"; "native"; "gcc"; "clang"]
  else ["native"; "gcc"; "clang"].

(** The height of a bar drawn from an int (line 93): [ax.bar] adds it to
    the bars' int64 baseline 0, and numpy raises [OverflowError] for a
    Python int outside int64. *)
Definition bar_height (value : Z) : result pynum :=
  if ((- 2 ^ 63 <=? value) && (value <? 2 ^ 63))%Z then Ok (PyInt value)
  else Raise OverflowError.

(** Lines 84-103 of [create_bar_chart]: the loop that draws the bars. *)
Definition draw_bars (data : gmap nat (gmap string Z)) (categories : list string)
    (opt_levels : list nat) (bar_width : Q) : result (list call) :=
  let num_bars_per_group := length categories in
  foldM (fun ax '(i, opt_level) =>
      foldM (fun ax '(j, category) =>
          let x := x_pos num_bars_per_group bar_width i j in
          row <-r getitem data opt_level ;;
          let value := default 0%Z (row !! category) in
          label <-r (if (i =? 0)%nat then getitem labels category else Ok "") ;;
          color <-r getitem colors category ;;
          height <-r bar_height value ;;
          let ax := ax ++ [Bar x height (bar_width - (2 # 100))%Q label color] in
          Ok (if (0 <? value)%Z
              then ax ++ [Annotate (Plain (pretty value)) x (PyInt value)]
              else ax))
        (enumerate categories) ax)
    (enumerate opt_levels) [].

(** [create_bar_chart] (lines 68-126).  The title is taken as plain text
    and the file name as one [plt.savefig] accepts, as those the script
    passes are. *)
Definition create_bar_chart (data : gmap nat (gmap string Z)) (title filename : string)
    (yticks : list Z) (include_interpreter : bool) : result chart :=
  let categories := bar_categories include_interpreter in
  let opt_levels := sorted_keys data in
  let num_bars_per_group := length categories in
  bar_width <-r bar_width_of num_bars_per_group ;;
  ax <-r draw_bars data categories opt_levels bar_width ;;
  Ok {| chart_file := path_join save_dir filename;
        chart_title := title;
        chart_yticks := Some yticks;
        chart_xticklabels := xticklabel <$> opt_levels;
        chart_calls := ax |}.

(** Lines 164-172 of [create_speedup_chart]: the speedups relative to
    O0, one list per category in the order the dict receives them. *)
Definition speedup_categories : list string :=
  ["interpreter"; "native"; "gcc"; "clang"].

Definition speedup_levels (data : gmap nat (gmap string Z)) : list nat :=
  drop 1 (sorted_keys data).

Definition speedup_row (data : gmap nat (gmap string Z)) (baseline : Z)
    (category : string) (opt_levels : list nat) : result (list pynum) :=
  mapM (fun opt =>
      row <-r getitem data opt ;;
      match row !! category with
      | Some t => true_div baseline t
      | None => Ok (PyInt 0)
      end)
    opt_levels.

Definition calc_speedups (data : gmap nat (gmap string Z))
    : result (list (string * list pynum)) :=
  let categories := speedup_categories in
  let opt_levels := speedup_levels data in
  foldM (fun speedups category =>
      row0 <-r getitem data 0 ;;
      match row0 !! category with
      | Some baseline =>
          values <-r speedup_row data baseline category opt_levels ;;
          Ok (speedups ++ [(category, values)])
      | None => Ok speedups
      end)
    categories [].

(** [create_speedup_chart] (lines 163-224), with the title and the file
    name taken as in [create_bar_chart]. *)
Definition create_speedup_chart (data : gmap nat (gmap string Z))
    (title filename : string) : result chart :=
  let opt_levels := speedup_levels data in
  speedups <-r calc_speedups data ;;
  let num_bars_per_group := length speedups in
  bar_width <-r bar_width_of num_bars_per_group ;;
  ax <-r foldM (fun ax '(i, opt_level) =>
      foldM (fun ax '(j, (category, values)) =>
          match values !! i with
          | None => Ok ax
          | Some value =>
              if is_zero value then Ok ax
              else
                let x := x_pos num_bars_per_group bar_width i j in
                label <-r (if (i =? 0)%nat then getitem labels category else Ok "") ;;
                color <-r getitem colors category ;;
                Ok (ax ++ [Bar x value (bar_width - (2 # 100))%Q label color;
                           Annotate (OneDecimalX value) x value])
          end)
        (enumerate speedups) ax)
    (enumerate opt_levels) [] ;;
  Ok {| chart_file := path_join save_dir filename;
        chart_title := title;
        chart_yticks := None;
        chart_xticklabels := xticklabel <$> opt_levels;
        chart_calls := ax |}.

(** ** The script *)

(** A run threads the list of charts saved so far and stops at the first
    exception. *)
Definition prog (A : Type) : Type := list chart -> list chart * result A.

Definition pbind {A B} (m : prog A) (f : A -> prog B) : prog B :=
  fun saved =>
    match m saved with
    | (saved', Ok a) => f a saved'
    | (saved', Raise e) => (saved', Raise e)
    end.

Notation "x <-p m ;; k" := (pbind m (fun x => k))
  (at level 100, m at next level, right associativity).
Notation "m ;;p k" := (pbind m (fun _ => k))
  (at level 100, right associativity).

(** A step that writes nothing. *)
Definition lift {A} (r : result A) : prog A := fun saved => (saved, r).

(** A chart function: the image is written by [plt.savefig] at its end. *)
Definition savefig (r : result chart) : prog unit :=
  fun saved =>
    match r with
    | Ok c => (saved ++ [c], Ok tt)
    | Raise e => (saved, Raise e)
    end.

Definition script (content : string) : prog unit :=
  x86 <-p lift (x86_section content) ;;
  riscv <-p lift (riscv_section content) ;;
  x86_data <-p lift (parse_section x86) ;;
  riscv_data <-p lift (parse_section riscv) ;;
  savefig (create_bar_chart x86_data "Mandelbrot.b runtime on x86_64 (Zen2 4.4GHz)"
             "benchmark_x86_all.png" (arange 22000 2000) true) ;;p
  savefig (create_bar_chart x86_data "Mandelbrot.b runtime on x86_64 (Zen2 4.4GHz)"
             "benchmark_x86_compiled.png" (arange 2300 250) false) ;;p
  savefig (create_bar_chart riscv_data "Mandelbrot.b runtime on riscv64 (Ky X1 1.6GHz)"
             "benchmark_riscv_all.png" (arange 120000 10000) true) ;;p
  savefig (create_bar_chart riscv_data "Mandelbrot.b runtime on riscv64 (Ky X1 1.6GHz)"
             "benchmark_riscv_compiled.png" (arange 12000 1000) false) ;;p
  savefig (create_speedup_chart x86_data
             "Relative Speedup to Optimization Level O0 on x86_64"
             "benchmark_x86_speedup.png") ;;p
  savefig (create_speedup_chart riscv_data
             "Relative Speedup to Optimization Level O0 on riscv64"
             "benchmark_riscv_speedup.png").

(** Running the script from an empty output directory. *)
Definition run_script (content : string) : list chart * result unit :=
  script content [].

(** ** The table of the specification's example *)

Definition ex_table : gmap nat (gmap string Z) :=
  {[ 0 := {[ "interpreter" := 20000%Z; "native" := 500%Z ]};
     1 := {[ "interpreter" := 10000%Z ]} ]}.

(** ** Readings used by the statements *)

(** Following the specification's words: each marker's section runs from
    the marker's first occurrence to the first occurrence of the other
    marker when that one comes later, and to the end of the text
    otherwise, whichever marker comes first. *)
Definition sections_by_first_appearance (content : string) : option (string * string) :=
  i ← Str.find "x86_64" content;
  j ← Str.find "riscv64" content;
  Some (if (i <? j)%nat
        then (Str.take (j - i) (Str.drop i content), Str.drop j content)
        else (Str.drop i content, Str.take (i - j) (Str.drop j content))).

(** Following the specification's words: the text after the final [-O]
    or [_O] token of a description, and the digit that starts it. *)
Fixpoint after_final_O (s : string) : option string :=
  match s with
  | EmptyString => None
  | String c s' =>
      match after_final_O s' with
      | Some r => Some r
      | None =>
          if Ascii.eqb c "-" || Ascii.eqb c "_" then Str.strip_prefix "O" s' else None
      end
  end.

Definition level_after_final_O (s : string) : option nat :=
  match after_final_O s with
  | Some (String d _) => if is_digit d then Some (code d - 48) else None
  | _ => None
  end.

(** Every character of [s] is in the class [p]. *)
Fixpoint all_in (p : ascii -> bool) (s : string) : bool :=
  match s with
  | EmptyString => true
  | String c s' => p c && all_in p s'
  end.

(** Lines 22-36 and the [int(time)] of line 40 for one match: the
    classified triple (level, category, time), [None] when the match is
    skipped. *)
Definition triple_of (m : string * string) : result (option (nat * string * Z)) :=
  cl <-r classify m.1 ;;
  match cl with
  | None => Ok None
  | Some (category, opt_level) =>
      t <-r int_of_string m.2 ;; Ok (Some (opt_level, category, t))
  end.

Definition triples (matches : list (string * string)) : list (nat * string * Z) :=
  omap (fun m => match triple_of m with Ok tr => tr | Raise _ => None end) matches.

(** The time of the last triple with the key (level, category). *)
Definition last_write (level : nat) (category : string)
    (trs : list (nat * string * Z)) : option Z :=
  last (omap (fun '(l, c, t) =>
                if decide (l = level /\ c = category) then Some t else None) trs).

(** The offset of bar [j] inside its group. *)
Definition offset (n : nat) (j : nat) : Q :=
  ((inject_Z (Z.of_nat j) - inject_Z (Z.of_nat n) / 2 + (1 # 2))
   * (group_width / inject_Z (Z.of_nat n)))%Q.

(** What one iteration of the inner loop of [create_bar_chart] draws. *)
Definition bar_cell (data : gmap nat (gmap string Z)) (n : nat) (w : Q)
    (i opt j : nat) (cat : string) : list call :=
  let x := x_pos n w i j in
  let value := default 0%Z (cell data opt cat) in
  Bar x (PyInt value) (w - (2 # 100))%Q
      (if (i =? 0)%nat then default "" (labels !! cat) else "")
      (default "" (colors !! cat))
  :: (if (0 <? value)%Z then [Annotate (Plain (pretty value)) x (PyInt value)] else []).

(** ["1" * n]: a run of [n] digits. *)
Fixpoint ones (n : nat) : string :=
  match n with
  | O => ""
  | S n' => String "1" (ones n')
  end.

(** The times that a bar chart of [data] draws all fit an int64. *)
Definition drawable (data : gmap nat (gmap string Z)) (include_interpreter : bool)
    : Prop :=
  forall opt category t,
    category ∈ bar_categories include_interpreter ->
    cell data opt category = Some t -> (- 2 ^ 63 <= t < 2 ^ 63)%Z.

(** The shape of a table built by [parse_section]: levels are single
    digits, no row is empty, and a row holds only the four categories
    with non-negative times. *)
Definition table_shape (data : gmap nat (gmap string Z)) : Prop :=
  forall level row, data !! level = Some row ->
    level <= 9
    /\ row <> ∅
    /\ forall category t, row !! category = Some t ->
         category ∈ speedup_categories /\ (0 <= t)%Z.

(** What holds of the calls of a speedup chart drawn from [speedups]:
    a bar shows a non-zero entry of some category in that category's
    colour and has its annotation. *)
Definition speedup_calls_ok (speedups : list (string * list pynum))
    (ax : list call) : Prop :=
  forall x v w label color, Bar x v w label color ∈ ax ->
    is_zero v = false
    /\ Annotate (OneDecimalX v) x v ∈ ax
    /\ exists category values i,
         (category, values) ∈ speedups
         /\ values !! i = Some v
         /\ colors !! category = Some color.

(** A [bar] call, as against an [annotate] call. *)
Definition is_bar (c : call) : bool :=
  match c with
  | Bar _ _ _ _ _ => true
  | Annotate _ _ _ => false
  end.

(** The six images of a complete run, in the order they are written. *)
Definition chart_files : list string :=
  [ "doc/benchmark_x86_all.png"; "doc/benchmark_x86_compiled.png";
    "doc/benchmark_riscv_all.png"; "doc/benchmark_riscv_compiled.png";
    "doc/benchmark_x86_speedup.png"; "doc/benchmark_riscv_speedup.png" ].

(** * Properties *)

(** ** Loops *)

Section FoldFacts.

Lemma foldM_app {A S} (f : S -> A -> result S) l1 l2 s :
  foldM f (l1 ++ l2) s = (s' <-r foldM f l1 s ;; foldM f l2 s').
Proof.
  revert s; induction l1 as [|x l1 IH]; intros s; cbn [foldM app rbind]; [done|].
  destruct (f s x); cbn [rbind]; [apply IH|done].
Qed.

Lemma foldM_invariant {A S} (f : S -> A -> result S) (P : S -> Prop) l : forall s s',
  (forall s x s', x ∈ l -> P s -> f s x = Ok s' -> P s') ->
  P s -> foldM f l s = Ok s' -> P s'.
Proof.
  induction l as [|x l IH]; intros s s' Hf Hs; cbn [foldM].
  - by intros [= <-].
  - destruct (f s x) as [s1|e] eqn:E; cbn [rbind]; [|done].
    apply IH; [|by eapply Hf; [left|..]].
    intros s2 y s3 Hy. apply Hf. by right.
Qed.

Lemma foldM_Raise {A S} (f : S -> A -> result S) l : forall s e,
  foldM f l s = Raise e -> exists x s', x ∈ l /\ f s' x = Raise e.
Proof.
  induction l as [|x l IH]; intros s e; cbn [foldM]; [done|].
  destruct (f s x) as [s1|e1] eqn:E; cbn [rbind].
  - intros (y & s' & Hy & H)%IH. exists y, s'. split; [by right|done].
  - intros [= <-]. exists x, s. split; [left|done].
Qed.

Lemma foldM_Ok_elem {A S} (f : S -> A -> result S) l : forall s r x,
  foldM f l s = Ok r -> x ∈ l -> exists s1 s2, f s1 x = Ok s2.
Proof.
  induction l as [|y l IH]; intros s r x; cbn [foldM];
    [by intros _ ?%elem_of_nil|].
  destruct (f s y) as [s1|] eqn:E; cbn [rbind]; [|done].
  intros H [->|Hx]%elem_of_cons; [eauto|]. by eapply IH.
Qed.

Lemma foldM_total {A S} (f : S -> A -> result S) l : forall s,
  (forall s x, x ∈ l -> exists s', f s x = Ok s') ->
  exists s', foldM f l s = Ok s'.
Proof.
  induction l as [|x l IH]; intros s Hf; cbn [foldM]; [eauto|].
  destruct (Hf s x) as [s1 ->]; [left|]. cbn [rbind].
  apply IH. intros s2 y Hy. apply Hf. by right.
Qed.

End FoldFacts.

(** ** Strings *)

Section StrFacts.
Import Str.

Lemma str_drop_0 s : drop 0 s = s.
Proof. by destruct s. Qed.

Lemma str_drop_empty n : drop n "" = "".
Proof. by destruct n. Qed.

Lemma str_drop_drop a b s : drop a (drop b s) = drop (b + a) s.
Proof.
  revert s; induction b as [|b IH]; intros s; simpl.
  - by rewrite ?str_drop_0.
  - destruct s as [|c s]; [by rewrite ?str_drop_empty|]. apply IH.
Qed.

Lemma str_length_drop n s : String.length (drop n s) = String.length s - n.
Proof.
  revert s; induction n as [|n IH]; intros [|c s]; simpl; done.
Qed.

Lemma str_take_all s : take (String.length s) s = s.
Proof. induction s as [|c s IH]; simpl; [done|by rewrite IH]. Qed.

Lemma contains_find needle s :
  contains needle s = false <-> find needle s = None.
Proof.
  induction s as [|c s IH]; simpl; destruct (strip_prefix needle _); try done.
  rewrite IH. by destruct (find needle s).
Qed.

(** [find] returns the least position at which [needle] starts. *)
Lemma find_Some needle s i :
  find needle s = Some i ->
  is_Some (strip_prefix needle (drop i s))
  /\ i <= String.length s
  /\ forall k, k < i -> strip_prefix needle (drop k s) = None.
Proof.
  revert i; induction s as [|c s IH]; intros i; simpl.
  - destruct (strip_prefix needle "") eqn:E; [|done].
    intros [= <-]. simpl. rewrite E. split; [eauto|]. split; [done|lia].
  - destruct (strip_prefix needle (String c s)) eqn:E.
    + intros [= <-]. simpl. rewrite E. split; [eauto|]. split; [lia|lia].
    + destruct (find needle s) as [j|] eqn:F; [|done].
      intros [= <-]. destruct (IH j eq_refl) as (H1 & H2 & H3).
      split; [done|]. split; [lia|].
      intros [|k] Hk; simpl; [done|]. apply H3. lia.
Qed.

Lemma from_first_find needle s i :
  find needle s = Some i -> from_first needle s = drop i s.
Proof.
  revert i; induction s as [|c s IH]; intros i; simpl;
    destruct (strip_prefix needle _) eqn:E; try done.
  - by intros [= <-].
  - by intros [= <-].
  - destruct (find needle s) as [j|] eqn:F; [|done].
    intros [= <-]. simpl. by apply IH.
Qed.

Lemma find_drop needle s i k :
  find needle s = Some i -> k <= i -> find needle (drop k s) = Some (i - k).
Proof.
  revert s i; induction k as [|k IH]; intros s i H Hk.
  - by rewrite str_drop_0, Nat.sub_0_r.
  - destruct s as [|c s]; simpl in *.
    + destruct (strip_prefix needle ""); [|done]. simplify_eq. lia.
    + destruct (strip_prefix needle (String c s)); [simplify_eq; lia|].
      destruct (find needle s) as [j|] eqn:F; [|done].
      injection H as <-. simpl. apply IH; [done|lia].
Qed.

Lemma str_take_drop n s : take n s +:+ drop n s = s.
Proof.
  revert s; induction n as [|n IH]; intros [|c s]; try done.
  cbn [take drop]. change (String c (take n s) +:+ drop n s)
    with (String c (take n s +:+ drop n s)). by rewrite IH.
Qed.

Lemma strip_prefix_drop p s s' :
  strip_prefix p s = Some s' -> s' = drop (String.length p) s.
Proof.
  revert s; induction p as [|a p IH]; intros s; simpl.
  - intros [= <-]. by rewrite ?str_drop_0.
  - destruct s as [|b s]; [done|]. destruct (Ascii.eqb a b); [|done]. apply IH.
Qed.

Lemma consumed_drop n s :
  n <= String.length s -> consumed s (drop n s) = take n s.
Proof.
  intros H. unfold consumed. rewrite str_length_drop.
  by replace (String.length s - (String.length s - n)) with n by lia.
Qed.

Lemma consumed_empty s : consumed s "" = s.
Proof. unfold consumed. simpl. rewrite Nat.sub_0_r. apply str_take_all. Qed.

End StrFacts.

(** ** Extracting the platform sections *)

Section SplitFacts.
Import Str.

Lemma run_ahead_marker {R} l t g (K : string -> gmap nat string -> option R) :
  run (Ahead (Alt (Lit l) EndZ)) t g K =
  match strip_prefix l t with
  | Some _ => K t g
  | None => match t with EmptyString => K t g | String _ _ => None end
  end.
Proof.
  cbn [run]. destruct (strip_prefix l t); [done|]. by destruct t.
Qed.

(** [.*?(?=l|\Z)] stops at the first occurrence of [l], or at the end. *)
Lemma rep_lazy_marker {R} l s g (F : string -> gmap nat string -> R) :
  rep_lazy any_char s
    (fun t => run (Ahead (Alt (Lit l) EndZ)) t g (fun t' g' => Some (F t' g')))
  = Some (F (from_first l s) g).
Proof.
  induction s as [|c s IH]; cbn [rep_lazy from_first];
    rewrite run_ahead_marker; destruct (strip_prefix l _); try done.
Qed.

Lemma rep_greedy_all {R} s (F : string -> R) :
  rep_greedy any_char s (fun t => Some (F t)) = Some (F "").
Proof. induction s as [|c s IH]; cbn [rep_greedy]; [done|]. by rewrite IH. Qed.

Lemma match_here_x86 s :
  match_here x86_pattern s =
  match strip_prefix "x86_64" s with
  | Some s' => Some {| group0 := consumed s (from_first "riscv64" s'); groups := ∅ |}
  | None => None
  end.
Proof.
  unfold match_here, x86_pattern. cbn [run].
  destruct (strip_prefix "x86_64" s) as [s'|]; [|done].
  apply (rep_lazy_marker "riscv64" s' ∅
           (fun t g => {| group0 := consumed s t; groups := g |})).
Qed.

Lemma match_here_riscv s :
  match_here riscv_pattern s =
  match strip_prefix "riscv64" s with
  | Some _ => Some {| group0 := s; groups := ∅ |}
  | None => None
  end.
Proof.
  unfold match_here, riscv_pattern. cbn [run].
  destruct (strip_prefix "riscv64" s) as [s'|]; [|done].
  rewrite (rep_greedy_all s' (fun t => {| group0 := consumed s t; groups := ∅ |})).
  by rewrite consumed_empty.
Qed.

(** A pattern that starts with a literal is found at the literal's first
    position where the rest matches; when the rest always matches, that is
    the literal's first occurrence. *)
Lemma search_at_first r l (G : string -> string -> match_obj) s :
  (forall t, match_here r t =
     match strip_prefix l t with Some t' => Some (G t t') | None => None end) ->
  search r s =
  match find l s with
  | Some i =>
      match strip_prefix l (drop i s) with
      | Some t' => Some (G (drop i s) t')
      | None => None
      end
  | None => None
  end.
Proof.
  intros Hr. induction s as [|c s IH]; cbn [search find]; rewrite Hr.
  - destruct (strip_prefix l "") eqn:E; [|done]. simpl. by rewrite E.
  - destruct (strip_prefix l (String c s)) eqn:E.
    + simpl. by rewrite E.
    + rewrite IH. by destruct (find l s).
Qed.
Lemma x86_section_find content :
  x86_section content =
  match find "x86_64" content with
  | Some i =>
      Ok (consumed (drop i content) (from_first "riscv64" (drop (i + 6) content)))
  | None => Raise AttributeError
  end.
Proof.
  unfold x86_section, search_group0.
  rewrite (search_at_first x86_pattern "x86_64"
    (fun t t' => {| group0 := consumed t (from_first "riscv64" t'); groups := ∅ |}))
    by apply match_here_x86.
  destruct (find "x86_64" content) as [i|] eqn:F; [|done].
  destruct (find_Some _ _ _ F) as ([t' Ht] & _ & _). rewrite Ht. cbn [group0].
  apply strip_prefix_drop in Ht. rewrite Ht, str_drop_drop. done.
Qed.

Lemma riscv_section_find content :
  riscv_section content =
  match find "riscv64" content with
  | Some j => Ok (drop j content)
  | None => Raise AttributeError
  end.
Proof.
  unfold riscv_section, search_group0.
  rewrite (search_at_first riscv_pattern "riscv64"
    (fun t _ => {| group0 := t; groups := ∅ |})) by apply match_here_riscv.
  destruct (find "riscv64" content) as [j|] eqn:F; [|done].
  destruct (find_Some _ _ _ F) as ([t' Ht] & _ & _). by rewrite Ht.
Qed.

(** No occurrence of [riscv64] starts inside an occurrence of [x86_64]. *)
Lemma markers_apart t t' k :
  strip_prefix "x86_64" t = Some t' -> k < 6 ->
  strip_prefix "riscv64" (drop k t) = None.
Proof.
  intros H Hk.
  do 6 (cbn [strip_prefix] in H; destruct t as [|? t]; [done|];
        match type of H with
        | (if Ascii.eqb ?a ?b then _ else _) = _ =>
            destruct (Ascii.eqb_spec a b); [subst|done]
        end).
  do 6 (destruct k as [|k]; [done|]). lia.
Qed.

(** C1 (amended).  For every report text in which both markers occur and
    the first [x86_64] comes before the first [riscv64], the two searches
    return two adjacent, non-overlapping substrings: the x86_64 section
    runs from the first [x86_64] to the start of the first [riscv64], the
    riscv64 section runs from there to the end of the text, and together
    they are the text from the first marker on.  This is the pair the
    specification's reading gives. *)
Theorem sections_when_x86_first content i j :
  find "x86_64" content = Some i ->
  find "riscv64" content = Some j ->
  i < j ->
  x86_section content = Ok (take (j - i) (drop i content))
  /\ riscv_section content = Ok (drop j content)
  /\ take (j - i) (drop i content) +:+ drop j content = drop i content
  /\ sections_by_first_appearance content
     = Some (take (j - i) (drop i content), drop j content).
Proof.
  intros Fx Fr Hij.
  destruct (find_Some _ _ _ Fx) as ([t' Hx] & Hi & _).
  destruct (find_Some _ _ _ Fr) as ([u' Hr] & Hj & Hmin).
  assert (i + 6 <= j) as H6.
  { destruct (decide (i + 6 <= j)); [done|].
    pose proof (markers_apart _ _ (j - i) Hx ltac:(lia)) as Hn.
    rewrite str_drop_drop in Hn. replace (i + (j - i)) with j in Hn by lia.
    by rewrite Hn in Hr. }
  assert (drop j content = drop (j - i) (drop i content)) as Hd
    by (rewrite str_drop_drop; f_equal; lia).
  split; [|split; [|split]].
  - rewrite x86_section_find, Fx.
    rewrite (from_first_find _ _ (j - (i + 6))) by (by apply find_drop).
    rewrite str_drop_drop. replace (i + 6 + (j - (i + 6))) with j by lia.
    rewrite Hd, consumed_drop by (rewrite str_length_drop; lia). done.
  - by rewrite riscv_section_find, Fr.
  - by rewrite Hd, str_take_drop.
  - unfold sections_by_first_appearance. rewrite Fx, Fr. simpl.
    by rewrite (proj2 (Nat.ltb_lt i j) Hij).
Qed.

Lemma sections_when_x86_first_witness :
  find "x86_64" "x86_64 a riscv64 b" = Some 0
  /\ find "riscv64" "x86_64 a riscv64 b" = Some 9
  /\ x86_section "x86_64 a riscv64 b" = Ok "x86_64 a "
  /\ riscv_section "x86_64 a riscv64 b" = Ok "riscv64 b".
Proof.
  split; [reflexivity|]. split; [reflexivity|].
  destruct (sections_when_x86_first "x86_64 a riscv64 b" 0 9) as (H1 & H2 & _);
    [reflexivity | reflexivity | lia |].
  split; [exact H1 | exact H2].
Defined.

(** C7.  For every report text that lacks one of the two platform
    markers, the search for that marker raises ([None] has no [group]),
    and the run stops there: it ends in that exception with no chart
    saved. *)
Theorem missing_marker_aborts content :
  contains "x86_64" content = false \/ contains "riscv64" content = false ->
  (contains "x86_64" content = false -> x86_section content = Raise AttributeError)
  /\ (contains "riscv64" content = false -> riscv_section content = Raise AttributeError)
  /\ run_script content = ([], Raise AttributeError).
Proof.
  intros H. rewrite !contains_find in *.
  split; [|split].
  - intros F. by rewrite x86_section_find, F.
  - intros F. by rewrite riscv_section_find, F.
  - unfold run_script, script, pbind, lift.
    rewrite x86_section_find, riscv_section_find.
    destruct H as [-> | ->]; [done|]. by destruct (find "x86_64" content).
Qed.

Lemma missing_marker_aborts_witness :
  contains "riscv64" "x86_64 interpret -O0 10ms" = false
  /\ riscv_section "x86_64 interpret -O0 10ms" = Raise AttributeError
  /\ run_script "x86_64 interpret -O0 10ms" = ([], Raise AttributeError).
Proof.
  split; [reflexivity|].
  destruct (missing_marker_aborts "x86_64 interpret -O0 10ms") as (_ & H2 & H3);
    [right; reflexivity|].
  split; [apply H2; reflexivity | exact H3].
Defined.

(** C1, counterexample.  With [riscv64] first, its section still runs to
    the end of the text and contains the whole x86_64 section, where the
    specification's reading stops it at the first [x86_64]. *)
Lemma sections_overlap_when_riscv_first :
  let content := "riscv64 a x86_64 b" in
  contains "x86_64" content = true
  /\ contains "riscv64" content = true
  /\ x86_section content = Ok "x86_64 b"
  /\ riscv_section content = Ok "riscv64 a x86_64 b"
  /\ ~ (exists x86 riscv,
          sections_by_first_appearance content = Some (x86, riscv)
          /\ x86_section content = Ok x86
          /\ riscv_section content = Ok riscv).
Proof.
  repeat split; try by vm_compute.
  intros (x86 & riscv & H1 & H2 & H3). vm_compute in H1, H3. congruence.
Qed.
End SplitFacts.

(** ** What a match of the line pattern holds *)

Section MatcherFacts.
Import Str.

Lemma rep_greedy_post {R} p s (k : string -> option R) x :
  rep_greedy p s k = Some x ->
  exists n, n <= String.length s /\ all_in p (take n s) = true /\ k (drop n s) = Some x.
Proof.
  revert x; induction s as [|c s IH]; intros x; cbn [rep_greedy].
  - intros H. exists 0. simpl. auto.
  - destruct (p c) eqn:Hp; [|intros H; exists 0; simpl; auto with lia].
    destruct (rep_greedy p s k) as [y|] eqn:Hg.
    + intros [= <-]. destruct (IH y eq_refl) as (n & Hn & Hall & Hk).
      exists (S n). cbn. rewrite Hp, Hall. split; [lia|done].
    + intros H. exists 0. simpl. auto with lia.
Qed.

Lemma rep_lazy_post {R} p s (k : string -> option R) x :
  rep_lazy p s k = Some x -> exists s', k s' = Some x.
Proof.
  revert x; induction s as [|c s IH]; intros x; cbn [rep_lazy].
  - destruct (k "") eqn:E; [|done]. intros [= <-]. eauto.
  - destruct (k (String c s)) eqn:E; [intros [= <-]; eauto|].
    destruct (p c); [apply IH|done].
Qed.

(** A successful run ends in its continuation. *)
Lemma run_post {R} r : forall s g (k : string -> gmap nat string -> option R) x,
  run r s g k = Some x -> exists s' g', k s' g' = Some x.
Proof.
  induction r as [l|p|r1 IH1 r2 IH2|r1 IH1 r2 IH2|p|p|p|n r1 IH1|r1 IH1|r1 IH1|];
    intros s g k x; cbn [run].
  - destruct (strip_prefix l s); [eauto|done].
  - destruct s as [|c s]; [done|]. destruct (p c); [eauto|done].
  - intros (s1 & g1 & H)%IH1. by apply IH2 in H.
  - destruct (run r1 s g k) eqn:E; [intros [= <-]; by apply IH1 in E|apply IH2].
  - intros (n & _ & _ & H)%rep_greedy_post. eauto.
  - destruct s as [|c s]; [done|]. destruct (p c); [|done].
    intros (n & _ & _ & H)%rep_greedy_post. eauto.
  - intros (s' & H)%rep_lazy_post. eauto.
  - intros (s1 & g1 & H)%IH1. eauto.
  - apply IH1.
  - destruct (run r1 s g _); [eauto|done].
  - destruct s; [eauto|done].
Qed.

Lemma int_digits_all s : forall acc,
  all_in is_digit s = true -> exists t, int_digits acc s = Ok t.
Proof.
  induction s as [|c s IH]; intros acc; cbn [all_in int_digits]; [eauto|].
  intros [-> Hs]%andb_true_iff. by apply IH.
Qed.

(** [int] on a non-empty run of digits: it converts up to 4300 digits and
    raises beyond. *)
Lemma int_of_digits s :
  s <> "" -> all_in is_digit s = true ->
  if decide (String.length s <= int_max_str_digits)
  then exists t, int_of_string s = Ok t
  else int_of_string s = Raise ValueError.
Proof.
  intros Hs Hall. destruct s as [|c s]; [done|]. unfold int_of_string.
  destruct (decide _) as [Hl|Hl].
  - rewrite (proj2 (Nat.ltb_ge _ _) Hl). by apply int_digits_all.
  - rewrite (proj2 (Nat.ltb_lt _ _)); [done|lia].
Qed.

Lemma consumed_cons_drop c s n :
  n <= String.length s -> consumed (String c s) (drop n s) = String c (take n s).
Proof.
  intros Hn. unfold consumed. rewrite str_length_drop. cbn [String.length].
  by replace (S (String.length s) - (String.length s - n)) with (S n) by lia.
Qed.

Lemma run_seq {R} r1 r2 s g (k : string -> gmap nat string -> option R) :
  run (r1 ⋅r r2) s g k = run r1 s g (fun s' g' => run r2 s' g' k).
Proof. reflexivity. Qed.

(** Group 2 of a match of [pattern] is a non-empty run of digits. *)
Lemma match_time_digits s m :
  match_here pattern s = Some m ->
  group 2 m <> "" /\ all_in is_digit (group 2 m) = true.
Proof.
  unfold match_here, pattern. rewrite run_seq.
  intros (s1 & g1 & H)%run_post.
  rewrite run_seq in H. apply run_post in H as (s2 & g2 & H).
  cbn [run] in H.
  destruct s2 as [|c s2]; [done|]. destruct (is_digit c) eqn:Hc; [|done].
  apply rep_greedy_post in H as (n & Hn & Hall & H).
  destruct (strip_prefix "ms" (drop n s2)); [|done].
  injection H as <-. unfold group. cbn [groups].
  rewrite lookup_insert_eq. cbn [default from_option id].
  rewrite consumed_cons_drop by done. split; [done|].
  cbn [all_in]. by rewrite Hc, Hall.
Qed.

Lemma findall_from_Forall r (P : string * string -> Prop) :
  (forall s m, match_here r s = Some m -> P (group 1 m, group 2 m)) ->
  forall s skip, Forall P (findall_from r skip s).
Proof.
  intros Hm. induction s as [|c s IH]; intros skip.
  - destruct skip; cbn [findall_from]; [|done].
    destruct (match_here r "") eqn:E; [|done]. constructor; [by eapply Hm|done].
  - destruct skip; cbn [findall_from]; [|done].
    destruct (match_here r (String c s)) eqn:E; [|done].
    constructor; [by eapply Hm|done].
Qed.

Lemma findall_times_digits section :
  Forall (fun m => m.2 <> "" /\ all_in is_digit m.2 = true) (findall pattern section).
Proof.
  apply findall_from_Forall. intros s m H. by apply match_time_digits in H.
Qed.
End MatcherFacts.

(** ** Building the table *)

Section ParseFacts.

Lemma cell_store data opt_level category time t :
  int_of_string time = Ok t ->
  exists data', store data opt_level category time = Ok data'
  /\ forall l c, cell data' l c =
       if decide (l = opt_level /\ c = category) then Some t else cell data l c.
Proof.
  intros Ht. unfold store, getitem. rewrite Ht. cbn [rbind].
  set (data1 := match data !! opt_level with
                | None => <[opt_level := ∅]> data
                | Some _ => data
                end).
  assert (exists row, data1 !! opt_level = Some row
            /\ (forall c, row !! c = cell data opt_level c)
            /\ forall l, l <> opt_level -> data1 !! l = data !! l)
    as (row & Hrow & Hcells & Hother).
  { unfold data1, cell. destruct (data !! opt_level) as [row|] eqn:E.
    - exists row. by rewrite E.
    - exists ∅. rewrite lookup_insert_eq. split; [done|].
      split; [intros c; by rewrite lookup_empty|].
      intros l Hl. by rewrite lookup_insert_ne. }
  rewrite Hrow. eexists; split; [done|].
  intros l c. unfold cell at 1.
  destruct (decide (l = opt_level /\ c = category)) as [[-> ->]|Hn].
  { rewrite lookup_insert_eq. simpl. by rewrite lookup_insert_eq. }
  destruct (decide (l = opt_level)) as [->|Hl].
  - rewrite lookup_insert_eq. simpl.
    rewrite lookup_insert_ne; [apply Hcells|]. intros ->. by apply Hn.
  - rewrite lookup_insert_ne by done. unfold cell. by rewrite Hother.
Qed.

Lemma parse_match_triple data m tr :
  triple_of m = Ok tr ->
  exists data', parse_match data m = Ok data'
  /\ forall l c, cell data' l c =
       match tr with
       | Some (l', c', t) =>
           if decide (l = l' /\ c = c') then Some t else cell data l c
       | None => cell data l c
       end.
Proof.
  destruct m as [method time]. unfold triple_of, parse_match. simpl.
  destruct (classify method) as [[[category opt_level]|]|e]; simpl; try done.
  - destruct (int_of_string time) as [t|e] eqn:Ht; simpl; [|done].
    intros [= <-]. by apply cell_store.
  - intros [= <-]. eauto.
Qed.

Lemma last_write_snoc level category trs l c t :
  last_write level category (trs ++ [(l, c, t)]) =
  if decide (level = l /\ category = c) then Some t
  else last_write level category trs.
Proof.
  unfold last_write. rewrite omap_app. simpl.
  destruct (decide (l = level /\ c = category)) as [[-> ->]|Hn].
  - rewrite decide_True by done. by rewrite last_snoc.
  - rewrite decide_False; [by rewrite app_nil_r|]. intros [-> ->]. by apply Hn.
Qed.

Lemma parse_matches_from ms : forall data done_,
  (forall l c, cell data l c = last_write l c (triples done_)) ->
  Forall (fun m => exists tr, triple_of m = Ok tr) ms ->
  exists data', foldM parse_match ms data = Ok data'
  /\ forall l c, cell data' l c = last_write l c (triples (done_ ++ ms)).
Proof.
  induction ms as [|m ms IH]; intros data done_ Hd Hms.
  - exists data. split; [done|]. by rewrite app_nil_r.
  - inversion Hms as [|? ? [tr Htr] Hms']; subst.
    destruct (parse_match_triple data m tr Htr) as (data1 & H1 & Hc1).
    cbn [foldM]. rewrite H1. cbn [rbind].
    replace (done_ ++ m :: ms) with ((done_ ++ [m]) ++ ms) by by rewrite <- app_assoc.
    apply IH; [|done].
    intros l c. rewrite Hc1. unfold triples. rewrite omap_app. simpl. rewrite Htr.
    destruct tr as [[[l' c'] t]|].
    + fold (triples done_). rewrite last_write_snoc. by rewrite Hd.
    + rewrite app_nil_r. apply Hd.
Qed.

(** C8 (amended).  For every section text whose matched lines all
    classify and convert without an exception, whatever keys repeat among
    them, [parse_section] returns a table, and each cell of it holds
    exactly the time of the last triple in text order with that
    (level, category) key; a key with no triple has no cell. *)
Theorem last_write_wins section :
  Forall (fun m => exists tr, triple_of m = Ok tr) (findall pattern section) ->
  exists data, parse_section section = Ok data
  /\ forall level category,
       cell data level category =
       last_write level category (triples (findall pattern section)).
Proof.
  intros H. unfold parse_section, parse_matches.
  apply (parse_matches_from _ ∅ []); [|done].
  intros l c. unfold cell. by rewrite lookup_empty.
Qed.

Lemma last_write_wins_witness :
  Forall (fun m => exists tr, triple_of m = Ok tr)
    (findall pattern "compile -O2 10ms compile -O2 20ms")
  /\ exists data, parse_section "compile -O2 10ms compile -O2 20ms" = Ok data
     /\ cell data 2 "native" = Some 20%Z.
Proof.
  assert (Forall (fun m => exists tr, triple_of m = Ok tr)
            (findall pattern "compile -O2 10ms compile -O2 20ms")) as H.
  { vm_compute findall. repeat constructor; eexists; vm_compute; reflexivity. }
  split; [exact H|].
  destruct (last_write_wins _ H) as (data & Hp & Hc).
  exists data. split; [exact Hp|]. rewrite Hc. vm_compute. reflexivity.
Defined.

(** C8, counterexample.  The key (2, native) occurs twice and a later
    line fails to classify: no table is built, [ValueError] is raised. *)
Lemma repeated_key_with_bad_line :
  findall pattern "compile -O2 10ms compile -O2 20ms gcc -O2 9ms"
    = [("compile -O2", "10"); ("compile -O2", "20"); ("gcc -O2", "9")]
  /\ triple_of ("compile -O2", "10") = Ok (Some (2, "native", 10%Z))
  /\ triple_of ("compile -O2", "20") = Ok (Some (2, "native", 20%Z))
  /\ parse_section "compile -O2 10ms compile -O2 20ms gcc -O2 9ms"
     = Raise ValueError.
Proof. repeat split; vm_compute; reflexivity. Qed.

(** C5.  On the line [compile -O2 1234ms] the pattern finds the one pair
    ("compile -O2", "1234"), whose time converts to 1234; the description
    classifies as category native, level 2, and the table built from the
    line is {2: {native: 1234}}. *)
Theorem line_compile_O2 :
  findall pattern "compile -O2 1234ms" = [("compile -O2", "1234")]
  /\ int_of_string "1234" = Ok 1234%Z
  /\ classify "compile -O2" = Ok (Some ("native", 2))
  /\ parse_section "compile -O2 1234ms" = Ok {[ 2 := {[ "native" := 1234%Z ]} ]}.
Proof. repeat split; vm_compute; reflexivity. Qed.

(** C6.  On the line [x86_64-gcc -O3 transpile_O3.c 987ms] the matched
    description is "gcc -O3 transpile_O3.c"; its third character from the
    end is the digit 3, and it classifies as category gcc, level 3. *)
Theorem line_gcc_O3 :
  findall pattern "x86_64-gcc -O3 transpile_O3.c 987ms"
    = [("gcc -O3 transpile_O3.c", "987")]
  /\ Str.from_end 3 "gcc -O3 transpile_O3.c" = Ok "3"%char
  /\ classify "gcc -O3 transpile_O3.c" = Ok (Some ("gcc", 3))
  /\ parse_section "x86_64-gcc -O3 transpile_O3.c 987ms"
     = Ok {[ 3 := {[ "gcc" := 987%Z ]} ]}.
Proof. repeat split; vm_compute; reflexivity. Qed.

Lemma from_end_1_cons c s :
  s <> "" -> Str.from_end 1 (String c s) = Str.from_end 1 s.
Proof.
  intros Hs. unfold Str.from_end. destruct s as [|c' s]; [done|].
  rewrite !decide_True by (simpl; lia).
  cbn [String.length]. replace (S (S (String.length s)) - 1)
    with (S (S (String.length s) - 1)) by lia. done.
Qed.

Lemma from_end_1_app s u :
  u <> "" -> Str.from_end 1 (s +:+ u) = Str.from_end 1 u.
Proof.
  intros Hu. induction s as [|c s IH]; [done|].
  change (String c s +:+ u) with (String c (s +:+ u)).
  rewrite from_end_1_cons; [done|]. by destruct s, u.
Qed.

Lemma digit_not_flag d :
  is_digit d = true -> Ascii.eqb d "-" || Ascii.eqb d "_" = false.
Proof. destruct d as [[] [] [] [] [] [] [] []]; by vm_compute. Qed.

Lemma after_final_O_ends prefix (flag d : ascii) :
  Ascii.eqb flag "-" || Ascii.eqb flag "_" = true ->
  is_digit d = true ->
  after_final_O (prefix +:+ String flag (String "O" (String d ""))) = Some (String d "").
Proof.
  intros Hf Hd. induction prefix as [|c p IH].
  - change (after_final_O (String flag (String "O" (String d ""))) = Some (String d "")).
    cbn [after_final_O]. rewrite (digit_not_flag d Hd).
    change (Ascii.eqb "O" "-" || Ascii.eqb "O" "_") with false.
    cbv iota. by rewrite Hf.
  - change (String c p +:+ ?u) with (String c (p +:+ u)).
    cbn [after_final_O]. by rewrite IH.
Qed.

(** C4 (amended).  For every method description that ends in [-O<d>] or
    [_O<d>] for one decimal digit [d]: when it contains [interpret] it is
    classified interpreter, otherwise when it contains [compile] it is
    classified native, and in both cases the level is [d], the digit
    immediately following the final [-O] or [_O] token.  (The level is
    read from the last character of the description.) *)
Theorem level_of_flag_suffix method prefix d :
  is_digit d = true ->
  method = prefix +:+ "-O" +:+ String d ""
  \/ method = prefix +:+ "_O" +:+ String d "" ->
  (Str.contains "interpret" method = true ->
     classify method = Ok (Some ("interpreter", code d - 48)))
  /\ (Str.contains "interpret" method = false ->
      Str.contains "compile" method = true ->
      classify method = Ok (Some ("native", code d - 48)))
  /\ level_after_final_O method = Some (code d - 48).
Proof.
  intros Hd Hm.
  assert (Str.from_end 1 method = Ok d) as Hlast.
  { destruct Hm as [-> | ->]; rewrite from_end_1_app by done; done. }
  assert (after_final_O method = Some (String d "")) as Hfin.
  { destruct Hm as [-> | ->]; by apply after_final_O_ends. }
  unfold classify, level_after_final_O. rewrite Hlast, Hfin. cbn [rbind].
  unfold int_of_char. rewrite Hd. cbn [rbind].
  repeat split.
  - by intros ->.
  - by intros -> ->.
Qed.

Lemma level_of_flag_suffix_witness :
  is_digit "2" = true
  /\ classify "compile -O2" = Ok (Some ("native", 2)).
Proof.
  split; [reflexivity|].
  apply (level_of_flag_suffix "compile -O2" "compile " "2"%char);
    [reflexivity | left; reflexivity | reflexivity | reflexivity].
Defined.

(** C4, counterexample.  A description of the reference-compiler shape
    that contains [interpret] ends in [c], not in the digit after its
    final [_O]: the classifier raises [ValueError].  With two digits
    after [-O] the level is the last digit, not the first. *)
Lemma level_not_after_final_O :
  findall pattern "interpret x transpile_O2.c 10ms"
    = [("interpret x transpile_O2.c", "10")]
  /\ Str.contains "interpret" "interpret x transpile_O2.c" = true
  /\ level_after_final_O "interpret x transpile_O2.c" = Some 2
  /\ classify "interpret x transpile_O2.c" = Raise ValueError
  /\ findall pattern "compile -O12 5ms" = [("compile -O12", "5")]
  /\ level_after_final_O "compile -O12" = Some 1
  /\ classify "compile -O12" = Ok (Some ("native", 2)).
Proof. repeat split; vm_compute; reflexivity. Qed.

End ParseFacts.

(** ** The bar chart *)

Section ChartFacts.

Lemma inject_Z_nat_near (i i' : nat) (d : Q) :
  (inject_Z (Z.of_nat i) - inject_Z (Z.of_nat i') == d)%Q ->
  (-1 < d)%Q -> (d < 1)%Q -> i = i'.
Proof.
  intros He Hlo Hhi.
  assert (inject_Z (Z.of_nat i - 1) < inject_Z (Z.of_nat i'))%Q as H1.
  { unfold Z.sub. rewrite inject_Z_plus, inject_Z_opp.
    change (inject_Z 1) with 1%Q. lra. }
  assert (inject_Z (Z.of_nat i') < inject_Z (Z.of_nat i + 1))%Q as H2.
  { rewrite inject_Z_plus. change (inject_Z 1) with 1%Q. lra. }
  rewrite <- Zlt_Qlt in H1, H2. lia.
Qed.

Lemma offset_bounds n j :
  n = 3 \/ n = 4 -> j < n ->
  (- (1 # 2) < offset n j)%Q /\ (offset n j < 1 # 2)%Q.
Proof.
  intros [-> | ->] Hj;
    repeat (destruct j as [|j]; [|try lia]); by vm_compute.
Qed.

Lemma offset_inj n j j' :
  n = 3 \/ n = 4 -> j < n -> j' < n -> (offset n j == offset n j')%Q -> j = j'.
Proof.
  intros [-> | ->] Hj Hj' He;
    repeat (destruct j as [|j]; [|try lia]);
    repeat (destruct j' as [|j']; [|try lia]);
    try done; by vm_compute in He.
Qed.

Lemma x_pos_inj n i j i' j' :
  n = 3 \/ n = 4 -> j < n -> j' < n ->
  x_pos n (group_width / inject_Z (Z.of_nat n)) i j
  = x_pos n (group_width / inject_Z (Z.of_nat n)) i' j' ->
  i = i' /\ j = j'.
Proof.
  intros Hn Hj Hj' He.
  assert (inject_Z (Z.of_nat i) + offset n j
          == inject_Z (Z.of_nat i') + offset n j')%Q as Hq.
  { change (x_pos n (group_width / inject_Z (Z.of_nat n)) i j
            == x_pos n (group_width / inject_Z (Z.of_nat n)) i' j')%Q.
    by rewrite He. }
  destruct (offset_bounds n j Hn Hj), (offset_bounds n j' Hn Hj').
  assert (i = i') as <-.
  { apply (inject_Z_nat_near i i' (offset n j' - offset n j)); lra. }
  split; [done|]. apply (offset_inj n); [done..|]. lra.
Qed.


Lemma elem_of_enumerate {A} (l : list A) i x :
  (i, x) ∈ enumerate l <-> l !! i = Some x.
Proof.
  unfold enumerate. rewrite elem_of_lookup_imap. split.
  - by intros (i' & y & [= -> ->] & H).
  - intros H. by exists i, x.
Qed.

Lemma elem_of_sorted_keys {V} (d : gmap nat V) k :
  k ∈ sorted_keys d <-> is_Some (d !! k).
Proof.
  unfold sorted_keys. rewrite merge_sort_Permutation, elem_of_elements.
  apply elem_of_dom.
Qed.

Lemma bar_categories_styled b cat :
  cat ∈ bar_categories b ->
  getitem labels cat = Ok (default "" (labels !! cat))
  /\ getitem colors cat = Ok (default "" (colors !! cat)).
Proof.
  destruct b; cbn [bar_categories]; rewrite ?elem_of_cons, elem_of_nil;
    intros H; destruct_or!; subst; done.
Qed.

Lemma foldM_emit_Ok {A} (f : list call -> A -> result (list call))
    (g : A -> list call) l : forall ax r,
  (forall ax x ax', x ∈ l -> f ax x = Ok ax' -> ax' = ax ++ g x) ->
  foldM f l ax = Ok r -> r = ax ++ mjoin (g <$> l).
Proof.
  induction l as [|x l IH]; intros ax r Hf; cbn [foldM fmap list_fmap mjoin list_join].
  - intros [= <-]. by rewrite app_nil_r.
  - destruct (f ax x) as [ax1|e] eqn:E; cbn [rbind]; [|done].
    apply Hf in E as ->; [|left]. intros ->%IH.
    + by rewrite <- app_assoc.
    + intros ax' y ax'' Hy. apply Hf. by right.
Qed.

Lemma bar_height_cases value :
  if decide (- 2 ^ 63 <= value < 2 ^ 63)%Z
  then bar_height value = Ok (PyInt value)
  else bar_height value = Raise OverflowError.
Proof.
  unfold bar_height. destruct (decide _) as [H|H].
  - rewrite (proj2 (Z.leb_le _ _)), (proj2 (Z.ltb_lt _ _)); [done|lia..].
  - destruct (Z.leb_spec (- 2 ^ 63) value), (Z.ltb_spec value (2 ^ 63)); [lia|done..].
Qed.

(** One pass of the inner loop of [draw_bars]: the bar of one cell and
    its annotation, or [OverflowError] for a time outside int64. *)
Lemma draw_bars_cell data b n w i opt j cat row ax :
  data !! opt = Some row -> cat ∈ bar_categories b ->
  (row <-r getitem data opt ;;
   let value := default 0%Z (row !! cat) in
   label <-r (if (i =? 0)%nat then getitem labels cat else Ok "") ;;
   color <-r getitem colors cat ;;
   height <-r bar_height value ;;
   let ax := ax ++ [Bar (x_pos n w i j) height (w - (2 # 100))%Q label color] in
   Ok (if (0 <? value)%Z
       then ax ++ [Annotate (Plain (pretty value)) (x_pos n w i j) (PyInt value)]
       else ax))
  = (_ <-r bar_height (default 0%Z (cell data opt cat)) ;;
     Ok (ax ++ bar_cell data n w i opt j cat)).
Proof.
  intros Hrow Hcat. destruct (bar_categories_styled b cat Hcat) as [Hl Hc].
  unfold getitem at 1. rewrite Hrow. cbn [rbind]. rewrite Hc.
  unfold bar_cell, cell. rewrite Hrow. cbn [mbind option_bind].
  pose proof (bar_height_cases (default 0%Z (row !! cat))) as Hh.
  destruct (decide _); rewrite Hh; cbn [rbind].
  - destruct (i =? 0)%nat; [rewrite Hl|]; cbn [rbind];
      destruct (0 <? default 0%Z (row !! cat))%Z; by rewrite <- ?app_assoc.
  - by destruct (i =? 0)%nat; [rewrite Hl|].
Qed.

Lemma draw_bars_Ok data b w calls :
  let n := length (bar_categories b) in
  draw_bars data (bar_categories b) (sorted_keys data) w = Ok calls ->
  calls =
     mjoin ((fun '(i, opt) =>
                mjoin ((fun '(j, cat) => bar_cell data n w i opt j cat)
                        <$> enumerate (bar_categories b)))
             <$> enumerate (sorted_keys data)).
Proof.
  intros n H. unfold draw_bars in H. fold n in H.
  eapply (foldM_emit_Ok _ (fun '(i, opt) =>
                mjoin ((fun '(j, cat) => bar_cell data n w i opt j cat)
                        <$> enumerate (bar_categories b)))) in H; [exact H|].
  intros ax [i opt] ax' Hi Hax. apply elem_of_enumerate in Hi.
  assert (is_Some (data !! opt)) as [row Hrow].
  { apply elem_of_sorted_keys. by eapply list_elem_of_lookup_2. }
  eapply (foldM_emit_Ok _ (fun '(j, cat) => bar_cell data n w i opt j cat));
    [|exact Hax].
  intros ax1 [j cat] ax2 Hj Hs. apply elem_of_enumerate in Hj.
  assert (cat ∈ bar_categories b) as Hcat by (by eapply list_elem_of_lookup_2).
  apply (eq_trans (eq_sym (draw_bars_cell data b n w i opt j cat row ax1 Hrow Hcat)))
    in Hs.
  destruct (bar_height _); cbn [rbind] in Hs; [|done]. by injection Hs as <-.
Qed.


Lemma draw_bars_Raise data b w e :
  draw_bars data (bar_categories b) (sorted_keys data) w = Raise e ->
  e = OverflowError /\ ~ drawable data b.
Proof.
  unfold draw_bars.
  intros ([i opt] & ax & Hi & H)%foldM_Raise. apply elem_of_enumerate in Hi.
  assert (is_Some (data !! opt)) as [row Hrow].
  { apply elem_of_sorted_keys. by eapply list_elem_of_lookup_2. }
  apply foldM_Raise in H as ([j cat] & ax' & Hj & H). apply elem_of_enumerate in Hj.
  assert (cat ∈ bar_categories b) as Hcat by (by eapply list_elem_of_lookup_2).
  apply (eq_trans (eq_sym (draw_bars_cell data b _ w i opt j cat row ax' Hrow Hcat)))
    in H.
  pose proof (bar_height_cases (default 0%Z (cell data opt cat))) as Hh.
  destruct (decide _) as [|Hr]; rewrite Hh in H; cbn [rbind] in H; [done|].
  injection H as <-. split; [done|]. intros Hd. apply Hr.
  destruct (cell data opt cat) as [t|] eqn:Ht; [by apply (Hd opt cat)|].
  cbn [default from_option id]. lia.
Qed.

Lemma draw_bars_Ok_drawable data b w calls :
  draw_bars data (bar_categories b) (sorted_keys data) w = Ok calls ->
  drawable data b.
Proof.
  intros H opt cat t Hcat Ht. unfold draw_bars in H.
  assert (is_Some (data !! opt)) as [row Hrow].
  { unfold cell in Ht. by destruct (data !! opt). }
  assert (opt ∈ sorted_keys data) as (i & Hi)%list_elem_of_lookup_1
    by (by apply elem_of_sorted_keys).
  apply list_elem_of_lookup_1 in Hcat as Hj. destruct Hj as [j Hj].
  destruct (foldM_Ok_elem _ _ _ _ (i, opt) H) as (ax & ax' & H1);
    [by apply elem_of_enumerate|].
  destruct (foldM_Ok_elem _ _ _ _ (j, cat) H1) as (ax1 & ax2 & H2);
    [by apply elem_of_enumerate|].
  apply (eq_trans (eq_sym (draw_bars_cell data b _ w i opt j cat row ax1 Hrow Hcat)))
    in H2.
  pose proof (bar_height_cases (default 0%Z (cell data opt cat))) as Hh.
  rewrite Ht in Hh, H2. cbn [default from_option id] in Hh, H2.
  destruct (decide _); [done|]. by rewrite Hh in H2.
Qed.

(** What [create_bar_chart] returns when it returns. *)
Lemma bar_chart_Ok data title filename yticks b ch :
  let n := length (bar_categories b) in
  let w := (group_width / inject_Z (Z.of_nat n))%Q in
  create_bar_chart data title filename yticks b = Ok ch ->
  chart_calls ch =
     mjoin ((fun '(i, opt) =>
                mjoin ((fun '(j, cat) => bar_cell data n w i opt j cat)
                        <$> enumerate (bar_categories b)))
             <$> enumerate (sorted_keys data))
  /\ chart_xticklabels ch = xticklabel <$> sorted_keys data
  /\ chart_file ch = path_join save_dir filename
  /\ chart_yticks ch = Some yticks.
Proof.
  intros n w. unfold create_bar_chart. fold n.
  assert (bar_width_of n = Ok w) as -> by (by destruct b).
  cbn [rbind].
  destruct (draw_bars _ _ _ _) as [calls|] eqn:Hc; cbn [rbind]; [|done].
  apply draw_bars_Ok in Hc. by intros [= <-].
Qed.

(** [create_bar_chart] draws every table whose times fit, and raises
    [OverflowError] for any other. *)
Lemma bar_chart_cases data title filename yticks b :
  (drawable data b /\ exists ch, create_bar_chart data title filename yticks b = Ok ch)
  \/ (~ drawable data b
      /\ create_bar_chart data title filename yticks b = Raise OverflowError).
Proof.
  unfold create_bar_chart.
  assert (bar_width_of (length (bar_categories b))
          = Ok (group_width / inject_Z (Z.of_nat (length (bar_categories b))))%Q)
    as -> by (by destruct b).
  cbn [rbind].
  destruct (draw_bars _ _ _ _) as [calls|e] eqn:Hc; cbn [rbind].
  - left. split; [by eapply draw_bars_Ok_drawable|eauto].
  - right. by apply draw_bars_Raise in Hc as [-> ?].
Qed.

Lemma elem_of_bar_calls data b c :
  let n := length (bar_categories b) in
  let w := (group_width / inject_Z (Z.of_nat n))%Q in
  c ∈ mjoin ((fun '(i, opt) =>
                mjoin ((fun '(j, cat) => bar_cell data n w i opt j cat)
                        <$> enumerate (bar_categories b)))
             <$> enumerate (sorted_keys data))
  <-> exists i opt j cat,
        sorted_keys data !! i = Some opt
        /\ bar_categories b !! j = Some cat
        /\ c ∈ bar_cell data n w i opt j cat.
Proof.
  intros n w. rewrite list_elem_of_join. split.
  - intros (l & Hc & Hl). apply list_elem_of_fmap in Hl as ([i opt] & -> & Hi).
    apply list_elem_of_join in Hc as (l' & Hc & Hl').
    apply list_elem_of_fmap in Hl' as ([j cat] & -> & Hj).
    exists i, opt, j, cat. by rewrite <- !elem_of_enumerate.
  - intros (i & opt & j & cat & Hi & Hj & Hc).
    eexists. split; [|apply list_elem_of_fmap; exists (i, opt); split;
                       [reflexivity|by apply elem_of_enumerate]].
    apply list_elem_of_join. eexists. split; [exact Hc|].
    apply list_elem_of_fmap. exists (j, cat). split; [done|].
    by apply elem_of_enumerate.
Qed.

(** The calls of one (level, category) pair among those of the whole
    loop: its bar, its annotation when the value is positive, and no
    annotation at its position otherwise. *)
Lemma bar_calls_of_cell data b i opt j cat :
  let n := length (bar_categories b) in
  let w := (group_width / inject_Z (Z.of_nat n))%Q in
  let calls :=
    mjoin ((fun '(i, opt) =>
              mjoin ((fun '(j, cat) => bar_cell data n w i opt j cat)
                      <$> enumerate (bar_categories b)))
           <$> enumerate (sorted_keys data)) in
  let x := x_pos n w i j in
  let v := default 0%Z (cell data opt cat) in
  sorted_keys data !! i = Some opt ->
  bar_categories b !! j = Some cat ->
  (exists label color, Bar x (PyInt v) (w - (2 # 100))%Q label color ∈ calls)
  /\ ((0 < v)%Z -> Annotate (Plain (pretty v)) x (PyInt v) ∈ calls)
  /\ ((v <= 0)%Z -> forall t y, Annotate t x y ∉ calls).
Proof.
  intros n w calls x v Hi Hj.
  assert (n = 3 \/ n = 4) as Hn by (destruct b; auto).
  split; [|split].
  - do 2 eexists. apply elem_of_bar_calls. exists i, opt, j, cat.
    split; [done|]. split; [done|]. unfold bar_cell. left.
  - intros Hpos. apply elem_of_bar_calls. exists i, opt, j, cat.
    split; [done|]. split; [done|]. unfold bar_cell. fold v.
    apply Z.ltb_lt in Hpos. rewrite Hpos. right. left.
  - intros Hle t y Hin. apply elem_of_bar_calls in Hin
      as (i' & opt' & j' & cat' & Hi' & Hj' & Hin).
    unfold bar_cell in Hin. apply elem_of_cons in Hin as [Hin|Hin]; [done|].
    destruct (0 <? default 0%Z (cell data opt' cat'))%Z eqn:Hpos;
      [|by apply elem_of_nil in Hin].
    apply list_elem_of_singleton in Hin.
    pose proof (f_equal (fun c => match c with
                                  | Bar x' _ _ _ _ | Annotate _ x' _ => x'
                                  end) Hin) as Hx.
    cbv beta iota in Hx. subst x.
    apply x_pos_inj in Hx as [<- <-]; [|done|by eapply lookup_lt_Some..].
    assert (opt' = opt) as -> by congruence.
    assert (cat' = cat) as -> by congruence.
    apply Z.ltb_lt in Hpos. fold v in Hpos. lia.
Qed.

(** A table is drawable when each of its rows is, which can be decided
    row by row. *)
Lemma drawable_rows data b :
  map_Forall (fun _ row =>
      map_Forall (fun category t =>
          category ∈ bar_categories b -> (- 2 ^ 63 <= t < 2 ^ 63)%Z) row) data ->
  drawable data b.
Proof.
  intros H opt cat t Hcat Ht. unfold cell in Ht.
  destruct (data !! opt) as [row|] eqn:Hrow; [|done].
  by apply (H opt row Hrow cat t).
Qed.




End ChartFacts.


Section SpeedupFacts.

Lemma mapM_Ok {A B} (f : A -> result B) l vs :
  mapM f l = Ok vs ->
  length vs = length l
  /\ forall i x, l !! i = Some x -> exists v, vs !! i = Some v /\ f x = Ok v.
Proof.
  revert vs; induction l as [|a l IH]; intros vs; cbn [mapM].
  - intros [= <-]. split; [done|]. intros i x Hi. by rewrite lookup_nil in Hi.
  - destruct (f a) as [b|e] eqn:Fa; cbn [rbind]; [|done].
    destruct (mapM f l) as [bs|e]; cbn [rbind]; [|done].
    intros [= <-]. destruct (IH bs eq_refl) as [Hlen Hl].
    split; [simpl; lia|]. intros [|i] x Hi.
    + injection Hi as <-. by exists b.
    + by apply Hl.
Qed.

Lemma speedup_levels_keys {V} (data : gmap nat V) opt :
  opt ∈ drop 1 (sorted_keys data) -> is_Some (data !! opt).
Proof.
  intros H. apply elem_of_sorted_keys.
  apply list_elem_of_lookup in H as [i Hi]. rewrite lookup_drop in Hi.
  by eapply list_elem_of_lookup_2.
Qed.

Lemma calc_speedups_fold data row0 cats : forall acc sp,
  data !! 0 = Some row0 ->
  foldM (fun speedups category =>
      row0 <-r getitem data 0 ;;
      match row0 !! category with
      | Some baseline =>
          values <-r speedup_row data baseline category (speedup_levels data) ;;
          Ok (speedups ++ [(category, values)])
      | None => Ok speedups
      end) cats acc = Ok sp ->
  (forall e, e ∈ acc -> e ∈ sp)
  /\ forall c b, c ∈ cats -> row0 !! c = Some b ->
       exists vs, (c, vs) ∈ sp
       /\ speedup_row data b c (speedup_levels data) = Ok vs.
Proof.
  intros acc sp H0. revert acc sp.
  induction cats as [|c cats IH]; intros acc sp; cbn [foldM].
  - intros [= <-]. split; [done|]. intros c b Hc. by apply elem_of_nil in Hc.
  - unfold getitem at 1. rewrite H0. cbn [rbind].
    destruct (row0 !! c) as [b|] eqn:Hb.
    + destruct (speedup_row data b c (speedup_levels data)) as [vs|e] eqn:Hvs;
        cbn [rbind]; [|done].
      intros [Hacc Hcats]%IH. split.
      * intros e He. apply Hacc, elem_of_app. by left.
      * intros c' b' [->|Hc']%elem_of_cons Hb'; [|by apply Hcats].
        exists vs. split; [|congruence].
        apply Hacc, elem_of_app. right. left.
    + intros [Hacc Hcats]%IH. split; [done|].
      intros c' b' [->|Hc']%elem_of_cons Hb'; [congruence|by apply Hcats].
Qed.

(** C2 (amended).  For every table on which the speedup computation
    succeeds and every category present at level 0, the category's list
    has one entry per non-baseline level, and at each such level whose
    (level, category) cell is absent the entry is the number 0.  For the
    specification's table the result is interpreter: [2.0] and
    native: [0]. *)
Theorem absent_cell_contributes_zero data speedups :
  calc_speedups data = Ok speedups ->
  (forall category baseline,
     category ∈ speedup_categories ->
     cell data 0 category = Some baseline ->
     exists values,
       (category, values) ∈ speedups
       /\ length values = length (speedup_levels data)
       /\ forall i opt,
            speedup_levels data !! i = Some opt ->
            cell data opt category = None ->
            values !! i = Some (PyInt 0))
  /\ calc_speedups ex_table
     = Ok [("interpreter", [PyFloat 2]); ("native", [PyInt 0])].
Proof.
  intros Hsp. split; [|by vm_compute].
  intros category baseline Hcat Hbase.
  unfold cell in Hbase. destruct (data !! 0) as [row0|] eqn:H0; [|done].
  simpl in Hbase.
  destruct (calc_speedups_fold data row0 _ _ _ H0 Hsp) as [_ Hcats].
  destruct (Hcats category baseline Hcat Hbase) as (vs & Hin & Hrow).
  exists vs. split; [done|].
  apply mapM_Ok in Hrow as [Hlen Hrow]. split; [done|].
  intros i opt Hi Habs. destruct (Hrow i opt Hi) as (v & Hv & Hf).
  rewrite Hv. f_equal. unfold cell, getitem in *.
  destruct (data !! opt) as [row|]; [|done]. simpl in Habs.
  cbn [rbind] in Hf. rewrite Habs in Hf. congruence.
Qed.

Lemma absent_cell_contributes_zero_witness :
  calc_speedups ex_table = Ok [("interpreter", [PyFloat 2]); ("native", [PyInt 0])]
  /\ exists values,
       ("native", values) ∈ [("interpreter", [PyFloat 2]); ("native", [PyInt 0])]
       /\ values !! 0 = Some (PyInt 0).
Proof.
  assert (calc_speedups ex_table
          = Ok [("interpreter", [PyFloat 2]); ("native", [PyInt 0])]) as H
    by (vm_compute; reflexivity).
  split; [exact H|].
  destruct (absent_cell_contributes_zero ex_table _ H) as [Hall _].
  destruct (Hall "native" 500%Z) as (values & Hin & _ & Hz).
  - right. left.
  - vm_compute. reflexivity.
  - exists values. split; [exact Hin|].
    apply (Hz 0 1); vm_compute; reflexivity.
Defined.

(** C2, counterexample.  In the specification's table the entry for native
    at level 1 is the int 0, which the chart's test [values[i] == 0]
    cannot tell from a zero ratio. *)
Lemma absent_cell_is_number_zero :
  cell ex_table 0 "native" = Some 500%Z
  /\ cell ex_table 1 "native" = None
  /\ speedup_levels ex_table = [1]
  /\ exists speedups values,
       calc_speedups ex_table = Ok speedups
       /\ ("native", values) ∈ speedups
       /\ values !! 0 = Some (PyInt 0)
       /\ is_zero (PyInt 0) = true.
Proof.
  split; [by vm_compute|]. split; [by vm_compute|]. split; [by vm_compute|].
  exists [("interpreter", [PyFloat 2]); ("native", [PyInt 0])], [PyInt 0].
  split; [by vm_compute|]. split; [|done]. right. left.
Qed.

Lemma sorted_keys_sorted {V} (d : gmap nat V) :
  StronglySorted Nat.le (sorted_keys d).
Proof. apply StronglySorted_merge_sort; apply _. Qed.

(** C10.  For every table without the key 0 (whether or not it has other
    levels), the speedup computation raises [KeyError] at [data[0]], and
    so does [create_speedup_chart].  The level left out of the speedup
    levels is the smallest key of the table, here a level other than 0,
    and every level that stays is at least as large. *)
Theorem speedup_needs_level_0 data title filename :
  data !! 0 = None ->
  calc_speedups data = Raise KeyError
  /\ create_speedup_chart data title filename = Raise KeyError
  /\ forall least rest,
       sorted_keys data = least :: rest ->
       speedup_levels data = rest
       /\ is_Some (data !! least)
       /\ least <> 0
       /\ Forall (fun opt => least <= opt) rest.
Proof.
  intros H0.
  assert (calc_speedups data = Raise KeyError) as Hc.
  { unfold calc_speedups. cbn [foldM]. unfold getitem at 1. by rewrite H0. }
  split; [done|]. split; [unfold create_speedup_chart; by rewrite Hc|].
  intros least rest Hkeys.
  assert (is_Some (data !! least)) as Hleast.
  { apply elem_of_sorted_keys. rewrite Hkeys. left. }
  split; [unfold speedup_levels; by rewrite Hkeys|]. split; [done|].
  split.
  - intros ->. rewrite H0 in Hleast. by destruct Hleast.
  - pose proof (sorted_keys_sorted data) as Hs. rewrite Hkeys in Hs.
    by inversion Hs.
Qed.

Lemma speedup_needs_level_0_witness :
  let data : gmap nat (gmap string Z) :=
    {[ 1 := {[ "native" := 500%Z ]}; 2 := {[ "native" := 250%Z ]} ]} in
  data !! 0 = None
  /\ sorted_keys data = [1; 2]
  /\ speedup_levels data = [2]
  /\ calc_speedups data = Raise KeyError.
Proof.
  intros data.
  split; [reflexivity|]. split; [vm_compute; reflexivity|].
  split; [vm_compute; reflexivity|].
  apply (speedup_needs_level_0 data "" ""). reflexivity.
Defined.

Lemma float_overflow_pos : (0 < float_overflow)%Z.
Proof. by vm_compute. Qed.

Lemma true_div_zero_baseline t :
  t <> 0%Z -> true_div 0 t = Ok (PyFloat 0).
Proof.
  intros Ht. unfold true_div.
  rewrite (proj2 (Z.eqb_neq t 0) Ht).
  assert ((float_overflow * Z.abs t <=? Z.abs 0)%Z = false) as ->.
  { apply Z.leb_gt. change (Z.abs 0) with 0%Z.
    apply Z.mul_pos_pos; [apply float_overflow_pos|lia]. }
  reflexivity.
Qed.

(** The row of a category whose baseline is 0. *)
Lemma speedup_row_zero_baseline data category levels :
  (forall opt, opt ∈ levels -> is_Some (data !! opt)) ->
  ((exists opt, opt ∈ levels /\ cell data opt category = Some 0%Z) ->
     speedup_row data 0 category levels = Raise ZeroDivisionError)
  /\ ((forall opt, opt ∈ levels -> cell data opt category <> Some 0%Z) ->
      speedup_row data 0 category levels =
      Ok ((fun opt => match cell data opt category with
                      | Some _ => PyFloat 0
                      | None => PyInt 0
                      end) <$> levels)).
Proof.
  unfold speedup_row.
  induction levels as [|opt levels IH]; intros Hkeys.
  { split; [|done]. intros (opt & Hin & _). by apply elem_of_nil in Hin. }
  destruct IH as [IHz IHnz].
  { intros o Ho. apply Hkeys. by right. }
  destruct (Hkeys opt) as [row Hrow]; [left|].
  assert (cell data opt category = row !! category) as Hcell
    by (unfold cell; by rewrite Hrow).
  cbn [mapM fmap list_fmap]. unfold getitem at 1 3. rewrite Hrow. cbn [rbind].
  rewrite Hcell. split.
  - intros (o & Ho & Hz). destruct (row !! category) as [t|] eqn:Ht.
    + destruct (decide (t = 0%Z)) as [->|Hne]; [done|].
      rewrite (true_div_zero_baseline t Hne). cbn [rbind].
      rewrite IHz; [done|]. exists o. split; [|done].
      apply elem_of_cons in Ho as [->|Ho]; [congruence|done].
    + cbn [rbind]. rewrite IHz; [done|]. exists o. split; [|done].
      apply elem_of_cons in Ho as [->|Ho]; [congruence|done].
  - intros Hnz. rewrite IHnz by (intros o Ho; apply Hnz; by right).
    destruct (row !! category) as [t|] eqn:Ht; [|done].
    rewrite true_div_zero_baseline; [done|].
    intros ->. apply (Hnz opt); [left|congruence].
Qed.

(** C3 (amended).  For every table in which a category is present at
    level 0 with time 0: when some other level holds time 0 for that
    category the division raises [ZeroDivisionError] and the speedup
    computation fails; a zero baseline over a non-zero time is not an
    error but the ratio 0.0, so when no other level holds time 0 the
    category's list is computed, with 0.0 where the cell exists and 0
    where it does not; and whenever the whole computation succeeds, the
    category has that list, one entry per non-baseline level, every
    entry a zero ratio. *)
Theorem zero_baseline_speedups data category :
  category ∈ speedup_categories ->
  cell data 0 category = Some 0%Z ->
  ((exists opt, opt ∈ speedup_levels data /\ cell data opt category = Some 0%Z) ->
     speedup_row data 0 category (speedup_levels data) = Raise ZeroDivisionError
     /\ exists e, calc_speedups data = Raise e)
  /\ (forall t, t <> 0%Z -> true_div 0 t = Ok (PyFloat 0))
  /\ ((forall opt, opt ∈ speedup_levels data ->
         cell data opt category <> Some 0%Z) ->
      speedup_row data 0 category (speedup_levels data) =
      Ok ((fun opt => match cell data opt category with
                      | Some _ => PyFloat 0
                      | None => PyInt 0
                      end) <$> speedup_levels data))
  /\ (forall speedups,
        calc_speedups data = Ok speedups ->
        exists values,
          (category, values) ∈ speedups
          /\ values = (fun opt => match cell data opt category with
                                  | Some _ => PyFloat 0
                                  | None => PyInt 0
                                  end) <$> speedup_levels data
          /\ length values = length (speedup_levels data)
          /\ Forall (fun v => is_zero v = true) values).
Proof.
  intros Hcat Hbase.
  destruct (speedup_row_zero_baseline data category (speedup_levels data))
    as [Hz Hnz]; [intros opt; apply speedup_levels_keys|].
  assert (forall speedups, calc_speedups data = Ok speedups ->
            exists values, (category, values) ∈ speedups
              /\ speedup_row data 0 category (speedup_levels data) = Ok values)
    as Hrow.
  { intros speedups Hsp. unfold cell in Hbase.
    destruct (data !! 0) as [row0|] eqn:H0; [|done]. simpl in Hbase.
    destruct (calc_speedups_fold data row0 _ _ _ H0 Hsp) as [_ Hcats].
    by apply Hcats. }
  split; [|split; [exact true_div_zero_baseline|split; [exact Hnz|]]].
  - intros Hex. split; [by apply Hz|].
    destruct (calc_speedups data) as [speedups|e] eqn:Hsp; [|by exists e].
    destruct (Hrow speedups eq_refl) as (values & _ & Hv).
    rewrite (Hz Hex) in Hv. done.
  - intros speedups Hsp. destruct (Hrow speedups Hsp) as (values & Hin & Hv).
    exists values. split; [done|].
    rewrite Hnz in Hv.
    + injection Hv as <-. split; [done|]. split; [by rewrite length_fmap|].
      apply Forall_fmap, Forall_forall. intros opt _.
      cbv beta delta [compose]. destruct (cell data opt category); reflexivity.
    + intros opt Hopt Hzero. rewrite Hz in Hv; [done|]. by exists opt.
Qed.

Lemma zero_baseline_speedups_witness :
  let data : gmap nat (gmap string Z) :=
    {[ 0 := {[ "native" := 0%Z ]}; 1 := {[ "native" := 5%Z ]};
       2 := {[ "native" := 0%Z ]} ]} in
  "native" ∈ speedup_categories
  /\ cell data 0 "native" = Some 0%Z
  /\ (exists opt, opt ∈ speedup_levels data /\ cell data opt "native" = Some 0%Z)
  /\ speedup_row data 0 "native" (speedup_levels data) = Raise ZeroDivisionError
  /\ true_div 0 5 = Ok (PyFloat 0).
Proof.
  intros data.
  assert ("native" ∈ speedup_categories) as Hc by (right; left).
  assert (cell data 0 "native" = Some 0%Z) as H0 by reflexivity.
  assert (exists opt, opt ∈ speedup_levels data
                      /\ cell data opt "native" = Some 0%Z) as Hz.
  { exists 2. split; [|reflexivity].
    replace (speedup_levels data) with [1; 2] by (vm_compute; reflexivity).
    right. left. }
  split; [exact Hc|]. split; [exact H0|]. split; [exact Hz|].
  destruct (zero_baseline_speedups data "native" Hc H0) as (Hraise & Hdiv & _).
  split; [exact (proj1 (Hraise Hz))|]. apply Hdiv. lia.
Defined.

(** C3, counterexample.  A zero baseline over a non-zero time is the
    ratio 0.0: the computation succeeds and the chart draws nothing for
    it. *)
Lemma zero_baseline_gives_zero_ratio :
  let data : gmap nat (gmap string Z) :=
    {[ 0 := {[ "native" := 0%Z ]}; 1 := {[ "native" := 5%Z ]} ]} in
  cell data 0 "native" = Some 0%Z
  /\ calc_speedups data = Ok [("native", [PyFloat 0])]
  /\ exists ch, create_speedup_chart data "t" "f.png" = Ok ch
                /\ chart_calls ch = [].
Proof.
  intros data. split; [by vm_compute|]. split; [by vm_compute|].
  eexists. split; [by vm_compute|]. done.
Qed.

End SpeedupFacts.

(** ** More on [parse_section] *)

Section ParseMore.

Lemma strip_prefix_length p s s' :
  Str.strip_prefix p s = Some s' -> String.length p <= String.length s.
Proof.
  revert s; induction p as [|a p IH]; intros s; simpl; [lia|].
  destruct s as [|b s]; [done|]. destruct (Ascii.eqb a b); [|done].
  intros H%IH. simpl. lia.
Qed.

Lemma contains_length needle s :
  Str.contains needle s = true -> String.length needle <= String.length s.
Proof.
  induction s as [|c s IH]; cbn [Str.contains].
  - destruct (Str.strip_prefix needle "") eqn:E; [|done].
    intros _. by apply strip_prefix_length in E.
  - destruct (Str.strip_prefix needle (String c s)) eqn:E.
    + intros _. by apply strip_prefix_length in E.
    + intros H%IH. simpl. lia.
Qed.

Lemma get_in_range s : forall i, i < String.length s -> is_Some (String.get i s).
Proof.
  induction s as [|c s IH]; intros i Hi; simpl in Hi; [lia|].
  destruct i as [|i]; simpl; [eauto|]. apply IH. lia.
Qed.

Lemma from_end_in_range k s :
  1 <= k <= String.length s -> exists c, Str.from_end k s = Ok c.
Proof.
  intros Hk. unfold Str.from_end. rewrite decide_True by done.
  destruct (get_in_range s (String.length s - k)) as [c ->]; [lia|eauto].
Qed.

Lemma int_of_char_cases c :
  (exists n, int_of_char c = Ok n /\ n <= 9) \/ int_of_char c = Raise ValueError.
Proof.
  unfold int_of_char. destruct (is_digit c) eqn:Hc; [left|by right].
  eexists. split; [done|]. unfold is_digit, in_range in Hc.
  apply andb_true_iff in Hc as [_ Hc%Nat.leb_le]. lia.
Qed.

(** The level read [k] characters from the end of a description that is
    long enough: a digit's value, or [ValueError]. *)
Lemma level_from_end k method (category : string) :
  1 <= k <= String.length method ->
  (exists n, (c <-r Str.from_end k method ;; opt_level <-r int_of_char c ;;
              Ok (Some (category, opt_level))) = Ok (Some (category, n)) /\ n <= 9)
  \/ (c <-r Str.from_end k method ;; opt_level <-r int_of_char c ;;
      Ok (Some (category, opt_level))) = Raise ValueError.
Proof.
  intros Hk. destruct (from_end_in_range k method Hk) as [c ->]. cbn [rbind].
  destruct (int_of_char_cases c) as [(n & -> & Hn)| ->]; cbn [rbind]; eauto.
Qed.

Lemma classify_cases method :
  classify method = Ok None
  \/ (exists category n,
        classify method = Ok (Some (category, n))
        /\ category ∈ speedup_categories /\ n <= 9)
  \/ classify method = Raise ValueError.
Proof.
  unfold classify.
  destruct (Str.contains "interpret" method) eqn:E1.
  { apply contains_length in E1. simpl in E1.
    destruct (level_from_end 1 method "interpreter") as [(n & -> & Hn)| ->];
      [lia| |by right; right].
    right; left. exists "interpreter", n. repeat split; [|done]. left. }
  destruct (Str.contains "compile" method) eqn:E2.
  { apply contains_length in E2. simpl in E2.
    destruct (level_from_end 1 method "native") as [(n & -> & Hn)| ->];
      [lia| |by right; right].
    right; left. exists "native", n. repeat split; [|done]. right; left. }
  destruct (Str.contains "gcc" method) eqn:E3.
  { apply contains_length in E3. simpl in E3.
    destruct (level_from_end 3 method "gcc") as [(n & -> & Hn)| ->];
      [lia| |by right; right].
    right; left. exists "gcc", n. repeat split; [|done]. do 2 right; left. }
  destruct (Str.contains "clang" method) eqn:E4; [|by left].
  apply contains_length in E4. simpl in E4.
  destruct (level_from_end 3 method "clang") as [(n & -> & Hn)| ->];
    [lia| |by right; right].
  right; left. exists "clang", n. repeat split; [|done]. do 3 right; left.
Qed.

Lemma int_digits_nonneg s : forall acc t,
  (0 <= acc)%Z -> int_digits acc s = Ok t -> (0 <= t)%Z.
Proof.
  induction s as [|c s IH]; intros acc t Hacc; cbn [int_digits].
  - by intros [= <-].
  - destruct (is_digit c); [|done]. apply IH. lia.
Qed.

Lemma int_of_string_nonneg s t : int_of_string s = Ok t -> (0 <= t)%Z.
Proof.
  unfold int_of_string. destruct s; [done|].
  destruct (_ <? _)%nat; [done|]. by apply int_digits_nonneg.
Qed.

Lemma int_digits_Raise s : forall acc e, int_digits acc s = Raise e -> e = ValueError.
Proof.
  induction s as [|c s IH]; intros acc e; cbn [int_digits]; [done|].
  destruct (is_digit c); [apply IH|by intros [= <-]].
Qed.

Lemma int_of_string_Raise s e : int_of_string s = Raise e -> e = ValueError.
Proof.
  unfold int_of_string. destruct s; [by intros [= <-]|].
  destruct (_ <? _)%nat; [by intros [= <-]|]. apply int_digits_Raise.
Qed.

Lemma store_shape data opt_level category time data' :
  table_shape data -> opt_level <= 9 -> category ∈ speedup_categories ->
  store data opt_level category time = Ok data' -> table_shape data'.
Proof.
  intros Hd Hl Hc. unfold store, getitem.
  destruct (int_of_string time) as [t|] eqn:Ht; cbn [rbind]; [|done].
  apply int_of_string_nonneg in Ht.
  set (data1 := match data !! opt_level with
                | None => <[opt_level := ∅]> data
                | Some _ => data
                end).
  assert (exists row, data1 !! opt_level = Some row
            /\ (forall c u, row !! c = Some u ->
                  c ∈ speedup_categories /\ (0 <= u)%Z)
            /\ forall l, l <> opt_level -> data1 !! l = data !! l)
    as (row & Hrow & Hcells & Hother).
  { unfold data1. destruct (data !! opt_level) as [row|] eqn:E.
    - exists row. split; [done|]. split; [|done]. by apply (Hd opt_level).
    - exists ∅. rewrite lookup_insert_eq. split; [done|].
      split; [intros c u; by rewrite lookup_empty|].
      intros l Hne. by rewrite lookup_insert_ne. }
  rewrite Hrow. cbn [rbind]. intros [= <-] level row'.
  destruct (decide (level = opt_level)) as [->|Hne].
  - rewrite lookup_insert_eq. intros [= <-]. split; [done|].
    split; [apply insert_non_empty|].
    intros c u. destruct (decide (c = category)) as [->|Hcne].
    + rewrite lookup_insert_eq. by intros [= <-].
    + rewrite lookup_insert_ne by done. apply Hcells.
  - rewrite lookup_insert_ne by done. rewrite Hother by done. apply Hd.
Qed.

Lemma parse_match_shape data m data' :
  table_shape data -> parse_match data m = Ok data' -> table_shape data'.
Proof.
  intros Hd. destruct m as [method time]. unfold parse_match.
  destruct (classify_cases method) as [-> | [(c & n & -> & Hc & Hn) | ->]];
    cbn [rbind]; [by intros [= <-]| |done].
  by apply store_shape.
Qed.

(** One pass of the loop of [parse_section] stores or skips the match,
    or raises [ValueError]: at a description that fails to classify, or
    at the time of a classified one. *)
Lemma parse_match_cases data m :
  (exists data', parse_match data m = Ok data')
  \/ (parse_match data m = Raise ValueError
      /\ (classify m.1 = Raise ValueError
          \/ (exists cl, classify m.1 = Ok (Some cl))
             /\ int_of_string m.2 = Raise ValueError)).
Proof.
  destruct m as [method time]. unfold parse_match. simpl.
  destruct (classify_cases method) as [-> | [(c & n & -> & Hc & Hn) | ->]];
    cbn [rbind]; [left; eauto| |right; by auto].
  destruct (int_of_string time) as [t|e] eqn:Ht.
  - left. destruct (cell_store data n c time t Ht) as (data' & -> & _). eauto.
  - right. apply int_of_string_Raise in Ht as Hv. subst e.
    unfold store. rewrite Ht. split; [done|]. right. eauto.
Qed.

Lemma parse_section_shape section data :
  parse_section section = Ok data -> table_shape data.
Proof.
  intros H.
  eapply (foldM_invariant parse_match table_shape); [| |exact H].
  - intros d m d' _. apply parse_match_shape.
  - intros level row. by rewrite lookup_empty.
Qed.

(** X1.  Every table that [parse_section] returns has this shape: each
    level is a single digit (at most 9), no row is empty, and a row holds
    only the four categories, each with a non-negative time. *)
Theorem parsed_table_shape section data :
  parse_section section = Ok data ->
  forall level row, data !! level = Some row ->
    level <= 9
    /\ row <> ∅
    /\ forall category t, row !! category = Some t ->
         category ∈ speedup_categories /\ (0 <= t)%Z.
Proof. apply parse_section_shape. Qed.

Lemma parsed_table_shape_witness :
  exists data row,
    parse_section "gcc -O3 transpile_O2.c 40ms compile -O2 07ms" = Ok data
    /\ data !! 2 = Some row
    /\ row <> ∅
    /\ forall category t, row !! category = Some t ->
         category ∈ speedup_categories /\ (0 <= t)%Z.
Proof.
  exists {[ 2 := {[ "gcc" := 40%Z; "native" := 7%Z ]} ]},
         {[ "gcc" := 40%Z; "native" := 7%Z ]}.
  assert (parse_section "gcc -O3 transpile_O2.c 40ms compile -O2 07ms"
          = Ok {[ 2 := {[ "gcc" := 40%Z; "native" := 7%Z ]} ]}) as H
    by (vm_compute; reflexivity).
  split; [exact H|]. split; [reflexivity|].
  apply (parsed_table_shape _ _ H 2). reflexivity.
Defined.

Lemma parse_section_Raise section e :
  parse_section section = Raise e ->
  e = ValueError
  /\ exists m, m ∈ findall pattern section
       /\ (classify m.1 = Raise ValueError
           \/ (exists cl, classify m.1 = Ok (Some cl))
              /\ int_of_string m.2 = Raise ValueError).
Proof.
  intros (m & d & Hm & H)%foldM_Raise.
  destruct (parse_match_cases d m) as [[d' Hd'] | [He Hc]]; [congruence|].
  split; [congruence|]. by exists m.
Qed.

Lemma foldM_parse_match_bad ms : forall data m,
  m ∈ ms ->
  classify m.1 = Raise ValueError
  \/ (exists cl, classify m.1 = Ok (Some cl)) /\ int_of_string m.2 = Raise ValueError ->
  foldM parse_match ms data = Raise ValueError.
Proof.
  induction ms as [|m0 ms IH]; intros data m Hm Hbad;
    [by apply elem_of_nil in Hm|].
  cbn [foldM].
  destruct (parse_match_cases data m0) as [[d' Hd'] | [-> _]]; [|done].
  rewrite Hd'. cbn [rbind]. apply elem_of_cons in Hm as [->|Hm]; [|by eapply IH].
  exfalso. destruct m0 as [method time]. unfold parse_match in Hd'.
  simpl in Hbad. destruct Hbad as [Hbad | [[[c n] Hcl] Hint]].
  - by rewrite Hbad in Hd'.
  - rewrite Hcl in Hd'. cbn [rbind] in Hd'. unfold store in Hd'.
    by rewrite Hint in Hd'.
Qed.

Lemma parse_section_bad_line section m :
  m ∈ findall pattern section -> classify m.1 = Raise ValueError ->
  parse_section section = Raise ValueError.
Proof. intros Hm Hbad. eapply foldM_parse_match_bad; [done|by left]. Qed.

(** The time of a match fails to convert exactly when it has more than
    4300 digits. *)
Lemma matched_time_too_long section m :
  m ∈ findall pattern section ->
  int_of_string m.2 = Raise ValueError <-> int_max_str_digits < String.length m.2.
Proof.
  intros Hm. pose proof (findall_times_digits section) as Hd.
  rewrite Forall_forall in Hd. destruct (Hd m Hm) as [Hne Hall].
  pose proof (int_of_digits m.2 Hne Hall) as H.
  destruct (decide _) as [Hl|Hl].
  - destruct H as [t Ht]. split; [congruence|lia].
  - split; [lia|done].
Qed.

(** X2.  [parse_section] raises nothing but [ValueError], and it raises
    it exactly when some matched line has a description that fails to
    classify (the character its level is read from, the last one or the
    third from the end for gcc and clang, is not a digit), or is of one
    of the four methods and has a time of more than 4300 digits. *)
Theorem parse_section_raises_ValueError section :
  (forall e, parse_section section = Raise e -> e = ValueError)
  /\ (parse_section section = Raise ValueError
      <-> exists m, m ∈ findall pattern section
            /\ (classify m.1 = Raise ValueError
                \/ (exists cl, classify m.1 = Ok (Some cl))
                   /\ int_max_str_digits < String.length m.2)).
Proof.
  split; [intros e H; by apply parse_section_Raise in H as [-> _]|]. split.
  - intros H. apply parse_section_Raise in H as [_ (m & Hm & H)].
    exists m. split; [done|]. destruct H as [H | [Hcl H]]; [by left|].
    right. split; [done|]. by apply (matched_time_too_long section).
  - intros (m & Hm & H). eapply foldM_parse_match_bad; [exact Hm|].
    destruct H as [H | [Hcl H]]; [by left|].
    right. split; [done|]. by apply (matched_time_too_long section).
Qed.

Lemma parse_section_raises_ValueError_witness :
  (("gcc -O2", "9") ∈ findall pattern "compile -O1 4ms gcc -O2 9ms"
   /\ classify "gcc -O2" = Raise ValueError
   /\ parse_section "compile -O1 4ms gcc -O2 9ms" = Raise ValueError)
  /\ (("compile -O1", ones 4301)
        ∈ findall pattern ("compile -O1 " +:+ ones 4301 +:+ "ms")
      /\ classify "compile -O1" = Ok (Some ("native", 1))
      /\ parse_section ("compile -O1 " +:+ ones 4301 +:+ "ms") = Raise ValueError).
Proof.
  assert (("gcc -O2", "9") ∈ findall pattern "compile -O1 4ms gcc -O2 9ms") as Hm.
  { vm_compute findall. right. left. }
  assert (classify "gcc -O2" = Raise ValueError) as Hc by reflexivity.
  assert (("compile -O1", ones 4301)
            ∈ findall pattern ("compile -O1 " +:+ ones 4301 +:+ "ms")) as Hm'.
  { assert (findall pattern ("compile -O1 " +:+ ones 4301 +:+ "ms")
            = [("compile -O1", ones 4301)]) as -> by (vm_compute; reflexivity).
    left. }
  assert (classify "compile -O1" = Ok (Some ("native", 1))) as Hc' by reflexivity.
  split.
  - split; [exact Hm|]. split; [exact Hc|].
    apply (proj2 (proj2 (parse_section_raises_ValueError
                           "compile -O1 4ms gcc -O2 9ms"))).
    exists ("gcc -O2", "9"). split; [exact Hm | left; exact Hc].
  - split; [exact Hm'|]. split; [exact Hc'|].
    apply (proj2 (proj2 (parse_section_raises_ValueError
                           ("compile -O1 " +:+ ones 4301 +:+ "ms")))).
    exists ("compile -O1", ones 4301). split; [exact Hm'|]. right.
    split; [by eexists|]. apply Nat.ltb_lt. vm_compute. reflexivity.
Defined.

(** X3.  A match whose description names none of the four methods is
    skipped: taking it out of the list of matches, wherever it stands,
    leaves the result of the table builder unchanged. *)
Theorem unclassified_match_dropped matches1 m matches2 :
  Str.contains "interpret" m.1 = false ->
  Str.contains "compile" m.1 = false ->
  Str.contains "gcc" m.1 = false ->
  Str.contains "clang" m.1 = false ->
  parse_matches (matches1 ++ m :: matches2) = parse_matches (matches1 ++ matches2).
Proof.
  intros H1 H2 H3 H4. unfold parse_matches. rewrite !foldM_app.
  destruct (foldM parse_match matches1 ∅) as [d|]; cbn [rbind foldM]; [|done].
  destruct m as [method time]. unfold parse_match at 1, classify. simpl in *.
  by rewrite H1, H2, H3, H4.
Qed.

Lemma unclassified_match_dropped_witness :
  parse_matches ([("compile -O1", "5")] ++ ("tcc -O1", "7") :: [("compile -O2", "3")])
  = parse_matches ([("compile -O1", "5")] ++ [("compile -O2", "3")]).
Proof.
  apply (unclassified_match_dropped [("compile -O1", "5")] ("tcc -O1", "7")
           [("compile -O2", "3")]); reflexivity.
Defined.

Lemma rep_lazy_suffix {R} p s (k : string -> option R) x :
  rep_lazy p s k = Some x -> exists n, k (Str.drop n s) = Some x.
Proof.
  revert x; induction s as [|c s IH]; intros x; cbn [rep_lazy].
  - destruct (k "") eqn:E; [|done]. intros [= <-]. by exists 0.
  - destruct (k (String c s)) eqn:E; [intros [= <-]; by exists 0|].
    destruct (p c); [|done]. intros [n Hn]%IH. by exists (S n).
Qed.

(** A successful run hands its continuation a suffix of its input. *)
Lemma run_suffix {R} r : forall s g (k : string -> gmap nat string -> option R) x,
  run r s g k = Some x -> exists n g', k (Str.drop n s) g' = Some x.
Proof.
  induction r as [l|p|r1 IH1 r2 IH2|r1 IH1 r2 IH2|p|p|p|n r1 IH1|r1 IH1|r1 IH1|];
    intros s g k x; cbn [run].
  - destruct (Str.strip_prefix l s) as [s'|] eqn:E; [|done].
    apply strip_prefix_drop in E as ->. eauto.
  - destruct s as [|c s]; [done|]. destruct (p c); [|done].
    intros H. by exists 1, g.
  - intros (n1 & g1 & H)%IH1. apply IH2 in H as (n2 & g2 & H).
    rewrite str_drop_drop in H. eauto.
  - destruct (run r1 s g k) eqn:E; [intros [= <-]; by apply IH1 in E|apply IH2].
  - intros (n & _ & _ & H)%rep_greedy_post. eauto.
  - destruct s as [|c s]; [done|]. destruct (p c); [|done].
    intros (n & _ & _ & H)%rep_greedy_post. by exists (S n), g.
  - intros (n & H)%rep_lazy_suffix. eauto.
  - intros (n1 & g1 & H)%IH1. eauto.
  - apply IH1.
  - destruct (run r1 s g _); [|done]. intros H. by exists 0, g0.
  - destruct s; [|done]. intros H. by exists 0, g.
Qed.

Lemma contains_at needle s : forall k,
  is_Some (Str.strip_prefix needle (Str.drop k s)) -> Str.contains needle s = true.
Proof.
  induction s as [|c s IH]; intros k; cbn [Str.contains].
  - rewrite str_drop_empty. by intros [? ->].
  - destruct k as [|k]; cbn [Str.drop].
    + by intros [? ->].
    + intros H%IH. by destruct (Str.strip_prefix needle (String c s)).
Qed.

(** A match of [pattern] holds the unit [ms]. *)
Lemma match_has_ms s m : match_here pattern s = Some m -> Str.contains "ms" s = true.
Proof.
  unfold match_here, pattern. rewrite run_seq.
  intros (n1 & g1 & H)%run_suffix.
  rewrite run_seq in H. apply run_suffix in H as (n2 & g2 & H).
  rewrite run_seq in H. apply run_suffix in H as (n3 & g3 & H).
  cbn [run] in H. rewrite !str_drop_drop in H.
  destruct (Str.strip_prefix "ms" _) eqn:E in H; [|done].
  eapply contains_at. by rewrite E.
Qed.

Lemma findall_from_none r s :
  (forall k, match_here r (Str.drop k s) = None) ->
  forall skip, findall_from r skip s = [].
Proof.
  induction s as [|c s IH]; intros Hn skip.
  - pose proof (Hn 0) as H0. cbn [Str.drop] in H0.
    destruct skip; cbn [findall_from]; [|done]. by rewrite H0.
  - assert (forall k, match_here r (Str.drop k s) = None) as Hs
      by (intros k; apply (Hn (S k))).
    pose proof (Hn 0) as H0. cbn [Str.drop] in H0.
    destruct skip; cbn [findall_from]; [|by apply IH].
    rewrite H0. by apply IH.
Qed.

(** X4.  A section text without the unit [ms] has no match of the line
    pattern, and parses to the empty table without an exception. *)
Theorem no_unit_no_result section :
  Str.contains "ms" section = false ->
  findall pattern section = [] /\ parse_section section = Ok ∅.
Proof.
  intros H.
  assert (findall pattern section = []) as Hf.
  { apply findall_from_none. intros k.
    destruct (match_here pattern (Str.drop k section)) as [m|] eqn:E; [|done].
    apply match_has_ms in E.
    apply contains_find in H.
    destruct (Str.find "ms" (Str.drop k section)) as [j|] eqn:F.
    - apply find_Some in F as (F & _ & _). rewrite str_drop_drop in F.
      apply contains_at in F. apply contains_find in H. congruence.
    - apply contains_find in F. congruence. }
  split; [done|]. unfold parse_section. by rewrite Hf.
Qed.

Lemma no_unit_no_result_witness :
  Str.contains "ms" "x86_64 (Zen2 4.4GHz)
compile -O2 1234 s" = false
  /\ parse_section "x86_64 (Zen2 4.4GHz)
compile -O2 1234 s" = Ok ∅.
Proof.
  split; [reflexivity|].
  apply (no_unit_no_result "x86_64 (Zen2 4.4GHz)
compile -O2 1234 s"). reflexivity.
Defined.
End ParseMore.

(** ** More on the platform sections *)

Section SplitMore.
Import Str.

Lemma str_take_drop_comm n k s : drop k (take n s) = take (n - k) (drop k s).
Proof.
  revert n s; induction k as [|k IH]; intros n s.
  - by rewrite ?str_drop_0, Nat.sub_0_r.
  - destruct n as [|n], s as [|c s]; cbn [take drop Nat.sub]; try done.
    by destruct (n - k).
Qed.

Lemma strip_prefix_take p : forall s n r,
  strip_prefix p (take n s) = Some r ->
  is_Some (strip_prefix p s) /\ String.length p <= n.
Proof.
  induction p as [|a p IH]; intros s n r; cbn [strip_prefix String.length].
  - intros _. split; [eauto|lia].
  - destruct n as [|n], s as [|b s]; cbn [take]; try done.
    destruct (Ascii.eqb a b); [|done]. intros [H1 H2]%IH. split; [done|lia].
Qed.

Lemma from_first_none needle s : find needle s = None -> from_first needle s = "".
Proof.
  induction s as [|c s IH]; cbn [find from_first];
    destruct (strip_prefix needle _); try done.
  destruct (find needle s); [done|]. intros _. by apply IH.
Qed.

(** Where the x86_64 section ends: at a distance of at least 6 from its
    start, and there the text stops or [riscv64] begins; no [riscv64]
    begins inside it from position 6 on. *)
Lemma x86_section_extent content i :
  find "x86_64" content = Some i ->
  exists n,
    x86_section content = Ok (take n (drop i content))
    /\ 6 <= n <= String.length (drop i content)
    /\ (drop n (drop i content) = ""
        \/ is_Some (strip_prefix "riscv64" (drop n (drop i content))))
    /\ forall k, 6 <= k -> k < n ->
         strip_prefix "riscv64" (drop k (drop i content)) = None.
Proof.
  intros Fx. destruct (find_Some _ _ _ Fx) as ([t' Hx] & Hi & _).
  pose proof (strip_prefix_length _ _ _ Hx) as Hlen. simpl in Hlen.
  rewrite x86_section_find, Fx. set (t := drop i content) in *.
  replace (drop (i + 6) content) with (drop 6 t)
    by (unfold t; by rewrite str_drop_drop).
  destruct (find "riscv64" (drop 6 t)) as [m|] eqn:Fr.
  - destruct (find_Some _ _ _ Fr) as (Hr & Hm & Hmin).
    rewrite str_length_drop in Hm. rewrite str_drop_drop in Hr.
    exists (6 + m). rewrite (from_first_find _ _ m Fr), str_drop_drop.
    rewrite consumed_drop by lia. split; [done|]. split; [lia|].
    split; [by right|]. intros k Hk6 Hkn.
    specialize (Hmin (k - 6) ltac:(lia)). rewrite str_drop_drop in Hmin.
    by replace (6 + (k - 6)) with k in Hmin by lia.
  - exists (String.length t). rewrite (from_first_none _ _ Fr), consumed_empty.
    rewrite str_take_all. split; [done|]. split; [lia|]. split.
    + left. pose proof (str_length_drop (String.length t) t) as Hl.
      destruct (drop (String.length t) t); [done|simpl in Hl; lia].
    + intros k Hk6 Hkn.
      destruct (strip_prefix "riscv64" (drop k t)) eqn:E; [|done].
      assert (contains "riscv64" (drop 6 t) = true) as Hc.
      { apply (contains_at _ _ (k - 6)). rewrite str_drop_drop.
        replace (6 + (k - 6)) with k by lia. by rewrite E. }
      apply contains_find in Fr. congruence.
Qed.

(** X5.  Whenever the x86_64 search succeeds, its section starts with
    the marker [x86_64] at the marker's first occurrence, holds no
    [riscv64] marker at all, and ends where the text ends or where a
    [riscv64] begins. *)
Theorem x86_section_excludes_riscv content x86 :
  x86_section content = Ok x86 ->
  is_Some (strip_prefix "x86_64" x86)
  /\ contains "riscv64" x86 = false
  /\ exists i n,
       find "x86_64" content = Some i
       /\ x86 = take n (drop i content)
       /\ (drop n (drop i content) = ""
           \/ is_Some (strip_prefix "riscv64" (drop n (drop i content)))).
Proof.
  intros H.
  destruct (find "x86_64" content) as [i|] eqn:Fx;
    [|by rewrite x86_section_find, Fx in H].
  destruct (x86_section_extent content i Fx) as (n & Hn & Hlen & Hend & Hmin).
  assert (x86 = take n (drop i content)) as -> by congruence.
  destruct (find_Some _ _ _ Fx) as ([t' Hx] & _ & _).
  set (t := drop i content) in *.
  assert (is_Some (strip_prefix "x86_64" (take n t))) as Hstart.
  { clear -Hx Hlen. do 6 (destruct n as [|n]; [lia|]).
    do 6 (cbn [strip_prefix] in Hx; destruct t as [|? t]; [done|];
          match type of Hx with
          | (if Ascii.eqb ?a ?b then _ else _) = _ =>
              destruct (Ascii.eqb_spec a b); [subst|done]
          end).
    cbn. eauto. }
  split; [done|]. split; [|by exists i, n].
  apply contains_find.
  destruct (find "riscv64" (take n t)) as [k|] eqn:Fk; [|done].
  apply find_Some in Fk as ([r Hr] & _ & _).
  rewrite str_take_drop_comm in Hr.
  apply strip_prefix_take in Hr as [[r' Hr'] Hk]. simpl in Hk.
  destruct (decide (k < 6)) as [Hk6|Hk6].
  - destruct Hstart as [u Hu]. by rewrite (markers_apart _ _ k Hx Hk6) in Hr'.
  - rewrite Hmin in Hr'; [done|lia|lia].
Qed.

Lemma x86_section_excludes_riscv_witness :
  x86_section "cpu x86_64 a riscv64 b x86_64 c" = Ok "x86_64 a "
  /\ contains "riscv64" "x86_64 a " = false.
Proof.
  assert (x86_section "cpu x86_64 a riscv64 b x86_64 c" = Ok "x86_64 a ") as H
    by (vm_compute; reflexivity).
  split; [exact H|].
  exact (proj1 (proj2 (x86_section_excludes_riscv _ _ H))).
Defined.

(** X6.  Whenever the riscv64 search succeeds, its section is the text
    from the first [riscv64] to the end, whatever follows (a later
    [x86_64] included): the text before it and the section make up the
    whole report. *)
Theorem riscv_section_to_end content riscv :
  riscv_section content = Ok riscv ->
  exists j,
    find "riscv64" content = Some j
    /\ riscv = drop j content
    /\ is_Some (strip_prefix "riscv64" riscv)
    /\ take j content +:+ riscv = content.
Proof.
  rewrite riscv_section_find.
  destruct (find "riscv64" content) as [j|] eqn:F; [|done].
  intros [= <-]. exists j. split; [done|]. split; [done|].
  split; [by apply find_Some in F as (? & _ & _)|apply str_take_drop].
Qed.

Lemma riscv_section_to_end_witness :
  riscv_section "x86_64 a riscv64 b x86_64 c" = Ok "riscv64 b x86_64 c"
  /\ exists j, find "riscv64" "x86_64 a riscv64 b x86_64 c" = Some j
               /\ "riscv64 b x86_64 c" = drop j "x86_64 a riscv64 b x86_64 c".
Proof.
  assert (riscv_section "x86_64 a riscv64 b x86_64 c" = Ok "riscv64 b x86_64 c")
    as H by (vm_compute; reflexivity).
  split; [exact H|].
  destruct (riscv_section_to_end _ _ H) as (j & Hj & Hd & _).
  exists j. split; [exact Hj | exact Hd].
Defined.
End SplitMore.

(** ** The rounding of true division *)

Section FloatFacts.

Local Open Scope Z_scope.

Lemma round_half_even_bound num den :
  0 <= num -> 0 < den ->
  0 <= round_half_even num den
  /\ - den <= 2 * (round_half_even num den * den - num) <= den.
Proof.
  intros Hn Hd. unfold round_half_even.
  pose proof (Z.div_mod num den ltac:(lia)) as Hdm.
  pose proof (Z.mod_pos_bound num den Hd) as Hr.
  pose proof (Z.div_pos num den Hn Hd) as Hq.
  set (q := num / den) in *. set (r := num mod den) in *.
  destruct (Z.ltb_spec (2 * r) den); [split; nia|].
  destruct (Z.ltb_spec den (2 * r)); [split; nia|].
  destruct (Z.even q); split; nia.
Qed.

Lemma scale_spec n d e :
  scale n d e = (n * 2 ^ Z.max 0 (- e), d * 2 ^ Z.max 0 e).
Proof.
  unfold scale. destruct (Z.leb_spec 0 e).
  - rewrite Z.max_l, Z.max_r by lia. by rewrite Z.pow_0_r, Z.mul_1_r.
  - rewrite Z.max_r, Z.max_l by lia. by rewrite Z.pow_0_r, Z.mul_1_r.
Qed.

Lemma scale_step e :
  2 ^ Z.max 0 e * 2 ^ Z.max 0 (- (e - 1))
  = 2 * (2 ^ Z.max 0 (e - 1) * 2 ^ Z.max 0 (- e)).
Proof.
  destruct (Z.le_gt_cases e 0).
  - rewrite (Z.max_l 0 e), (Z.max_l 0 (e - 1)) by lia.
    rewrite !(Z.max_r 0 (- _)) by lia.
    replace (- (e - 1)) with (Z.succ (- e)) by lia.
    rewrite Z.pow_succ_r by lia. ring.
  - rewrite (Z.max_r 0 e), (Z.max_r 0 (e - 1)) by lia.
    rewrite !(Z.max_l 0 (- _)) by lia.
    replace e with (Z.succ (e - 1)) at 1 by lia.
    rewrite Z.pow_succ_r by lia. ring.
Qed.

Lemma scale_pos e : 0 < 2 ^ Z.max 0 e.
Proof. apply Z.pow_pos_nonneg; lia. Qed.

(** The first guess of the exponent leaves more than 51 bits. *)
Lemma log2_scale n d :
  0 < n -> 0 < d ->
  let e0 := Z.log2 n - Z.log2 d - 52 in
  2 ^ 52 * (d * 2 ^ Z.max 0 e0) < 2 * (n * 2 ^ Z.max 0 (- e0)).
Proof.
  intros Hn Hd e0.
  destruct (Z.log2_spec n Hn) as [Hn1 _]. destruct (Z.log2_spec d Hd) as [_ Hd2].
  pose proof (Z.log2_nonneg n). pose proof (Z.log2_nonneg d).
  destruct (Z.le_gt_cases 0 e0).
  - rewrite Z.max_r, Z.max_l by lia. rewrite Z.pow_0_r.
    replace (Z.log2 n) with (Z.log2 d + 52 + e0) in Hn1 by lia.
    rewrite !Z.pow_add_r in Hn1 by lia.
    rewrite Z.pow_succ_r in Hd2 by lia.
    pose proof (scale_pos e0) as He. rewrite Z.max_r in He by lia.
    assert (0 < 2 ^ Z.log2 d) by (apply Z.pow_pos_nonneg; lia).
    nia.
  - rewrite Z.max_l, Z.max_r by lia. rewrite Z.pow_0_r.
    assert (2 ^ Z.log2 n * 2 ^ (- e0) = 2 ^ Z.log2 d * 2 ^ 52) as Heq.
    { rewrite <- !Z.pow_add_r by lia. f_equal. lia. }
    rewrite Z.pow_succ_r in Hd2 by lia.
    assert (0 < 2 ^ (- e0)) by (apply Z.pow_pos_nonneg; lia).
    nia.
Qed.

Lemma last_place_spec n d :
  0 < n -> 0 < d ->
  let e := last_place n d in
  -1074 <= e
  /\ (2 ^ 52 * (d * 2 ^ Z.max 0 e) <= n * 2 ^ Z.max 0 (- e) \/ e = -1074).
Proof.
  intros Hn Hd. unfold last_place. rewrite scale_spec.
  pose proof (log2_scale n d Hn Hd) as H0. cbv zeta in H0.
  set (e0 := Z.log2 n - Z.log2 d - 52) in *.
  set (e1 := if _ <? _ then _ else _).
  assert (2 ^ 52 * (d * 2 ^ Z.max 0 e1) <= n * 2 ^ Z.max 0 (- e1)) as H1.
  { unfold e1. destruct (Z.ltb_spec (n * 2 ^ Z.max 0 (- e0))
                           (2 ^ 52 * (d * 2 ^ Z.max 0 e0))) as [Hlt|]; [|done].
    pose proof (scale_step e0) as Hs.
    pose proof (scale_pos e0). pose proof (scale_pos (- e0)).
    pose proof (scale_pos (e0 - 1)). pose proof (scale_pos (- (e0 - 1))).
    set (u0 := 2 ^ Z.max 0 e0) in *. set (s0 := 2 ^ Z.max 0 (- e0)) in *.
    set (u1 := 2 ^ Z.max 0 (e0 - 1)) in *. set (s1 := 2 ^ Z.max 0 (- (e0 - 1))) in *.
    (* n s1 u0 = 2 n u1 s0 > 2^52 d u0 u1 *)
    assert (2 ^ 52 * (d * u1) * u0 < n * s1 * u0); [|nia].
    replace (n * s1 * u0) with (2 * (n * s0) * u1) by (rewrite (Z.mul_comm u0 s1) in Hs; nia).
    nia. }
  split; [lia|]. destruct (Z.max_spec e1 (-1074)) as [[_ ->]|[_ ->]]; [by right|by left].
Qed.

(** The rational of [binary64_of_quotient], before reduction. *)
Lemma binary64_of_quotient_eq a b :
  a <> 0 -> b <> 0 ->
  let e := last_place (Z.abs a) (Z.abs b) in
  let m := Z.sgn a * Z.sgn b *
           round_half_even (Z.abs a * 2 ^ Z.max 0 (- e)) (Z.abs b * 2 ^ Z.max 0 e) in
  (binary64_of_quotient a b
   == inject_Z (m * 2 ^ Z.max 0 e) / inject_Z (2 ^ Z.max 0 (- e)))%Q.
Proof.
  intros Ha Hb e m. unfold binary64_of_quotient.
  rewrite (proj2 (Z.eqb_neq _ _)) by lia. fold e. rewrite scale_spec. fold m.
  rewrite Qred_correct.
  destruct (Z.leb_spec 0 e).
  - rewrite Z.max_r, Z.max_l by lia. rewrite Z.pow_0_r. change (inject_Z 1) with 1%Q. field.
  - rewrite Z.max_l, Z.max_r by lia. rewrite Z.pow_0_r, Z.mul_1_r.
    assert (0 < 2 ^ (- e)) as Hp by (apply Z.pow_pos_nonneg; lia).
    rewrite (Qmake_Qdiv m). by rewrite Z2Pos.id.
Qed.

Lemma binary64_of_quotient_error a b :
  b <> 0 ->
  (Qabs (binary64_of_quotient a b * inject_Z b - inject_Z a)
   <= Qabs (inject_Z a) / inject_Z (2 ^ 53)
      + Qabs (inject_Z b) / inject_Z (2 ^ 1075))%Q.
Proof.
  intros Hb. destruct (decide (a = 0)) as [->|Ha].
  { change (binary64_of_quotient 0 b) with 0%Q.
    assert (0 * inject_Z b - inject_Z 0 == 0)%Q as -> by ring.
    change (Qabs 0) with 0%Q at 1. change (Qabs (inject_Z 0)) with 0%Q.
    pose proof (Qabs_nonneg (inject_Z b)). 
    assert (0 <= Qabs (inject_Z b) / inject_Z (2 ^ 1075))%Q as H0.
    { apply Qle_shift_div_l; [by vm_compute|]. lra. }
    assert (0 / inject_Z (2 ^ 53) == 0)%Q as -> by (by vm_compute).
    lra. }
  rewrite (binary64_of_quotient_eq a b Ha Hb). cbv zeta.
  destruct (last_place_spec (Z.abs a) (Z.abs b)) as [He Hcase]; [lia..|].
  cbv zeta in He, Hcase.
  set (e := last_place (Z.abs a) (Z.abs b)) in *.
  pose proof (scale_pos e) as Hup. pose proof (scale_pos (- e)) as Hsh.
  set (up := 2 ^ Z.max 0 e) in *. set (sh := 2 ^ Z.max 0 (- e)) in *.
  destruct (round_half_even_bound (Z.abs a * sh) (Z.abs b * up)) as [HR Hhalf];
    [lia|lia|].
  set (R := round_half_even (Z.abs a * sh) (Z.abs b * up)) in *.
  set (X := Z.sgn a * Z.sgn b * R * up * b - a * sh).
  assert (Z.abs X = Z.abs (R * (Z.abs b * up) - Z.abs a * sh)) as HX.
  { unfold X. destruct (Z.abs_spec a) as [[? ->]|[? ->]],
      (Z.abs_spec b) as [[? ->]|[? ->]];
      rewrite ?Z.sgn_pos, ?Z.sgn_neg by lia; lia. }
  assert (2 ^ 53 * 2 ^ 1075 * Z.abs X
          <= (Z.abs a * 2 ^ 1075 + Z.abs b * 2 ^ 53) * sh) as Hz.
  { rewrite HX. destruct Hcase as [Hn|He'].
    - assert (2 ^ 53 * Z.abs (R * (Z.abs b * up) - Z.abs a * sh) <= Z.abs a * sh)
        by lia.
      assert (0 <= Z.abs b * 2 ^ 53 * sh) by lia. 
      assert (0 < 2 ^ 1075) by done. nia.
    - assert (up = 1 /\ sh = 2 ^ 1074) as [Hu Hs].
      { unfold up, sh. rewrite He'. done. }
      rewrite Hu, Hs in *.
      assert (2 ^ 1075 * Z.abs (R * (Z.abs b * 1) - Z.abs a * 2 ^ 1074)
              <= Z.abs b * 2 ^ 1074).
      { change (2 ^ 1075) with (2 * 2 ^ 1074) at 1.
        assert (0 < 2 ^ 1074) by done. nia. }
      assert (0 <= Z.abs a * 2 ^ 1075 * 2 ^ 1074) by lia.
      assert (0 < 2 ^ 53) by done. nia. }
  assert (0 < inject_Z sh)%Q as HS by (unfold Qlt; simpl; lia).
  assert (inject_Z (Z.sgn a * Z.sgn b * R * up) / inject_Z sh * inject_Z b - inject_Z a
          == inject_Z X / inject_Z sh)%Q as ->.
  { unfold X, Z.sub. rewrite inject_Z_plus, inject_Z_opp, !inject_Z_mult. field. lra. }
  unfold Qdiv at 1. rewrite Qabs_Qmult.
  rewrite (Qabs_pos (/ inject_Z sh)) by (apply Qlt_le_weak, Qinv_lt_0_compat, HS).
  change (Qabs (inject_Z X)) with (inject_Z (Z.abs X)).
  change (Qabs (inject_Z a)) with (inject_Z (Z.abs a)).
  change (Qabs (inject_Z b)) with (inject_Z (Z.abs b)).
  rewrite Zle_Qle in Hz. rewrite !inject_Z_mult, inject_Z_plus, !inject_Z_mult in Hz.
  assert (0 < inject_Z (2 ^ 53))%Q as HP by (by vm_compute).
  assert (0 < inject_Z (2 ^ 1075))%Q as HQ by (by vm_compute).
  set (P := inject_Z (2 ^ 53)) in *. set (C := inject_Z (2 ^ 1075)) in *.
  set (x := inject_Z (Z.abs X)) in *. set (A := inject_Z (Z.abs a)) in *.
  set (B := inject_Z (Z.abs b)) in *. set (S := inject_Z sh) in *.
  apply Qle_shift_div_r; [done|].
  assert ((A / P + B / C) * S == (A * C + B * P) * S / (P * C))%Q as ->
    by (field; lra).
  apply Qle_shift_div_l; [by apply Qmult_lt_0_compat|].
  assert (x * (P * C) == P * C * x)%Q as -> by ring. done.
Qed.

Lemma Qred_inject_Z k : Qred (inject_Z k) = inject_Z k.
Proof.
  unfold Qred, inject_Z.
  pose proof (Z.ggcd_gcd k 1) as Hg. pose proof (Z.ggcd_correct_divisors k 1) as Hd.
  destruct (Z.ggcd k 1) as [g [q r]]. cbn [fst snd] in *.
  rewrite Z.gcd_1_r in Hg. subst g. destruct Hd as [-> Hr].
  assert (r = 1) as -> by lia. f_equal. lia.
Qed.

(** A quotient that is an integer below [2^53] is not rounded. *)
Lemma binary64_of_quotient_exact k b :
  b <> 0 -> Z.abs k < 2 ^ 53 ->
  binary64_of_quotient (k * b) b = inject_Z k.
Proof.
  intros Hb Hk. destruct (decide (k = 0)) as [->|Hk0]; [done|].
  assert (k * b <> 0) as Ha by lia.
  rewrite <- (Qred_inject_Z k).
  unfold binary64_of_quotient at 1.
  rewrite (proj2 (Z.eqb_neq _ _)) by lia. rewrite scale_spec.
  destruct (last_place_spec (Z.abs (k * b)) (Z.abs b)) as [He Hcase]; [lia..|].
  cbv zeta in He, Hcase.
  set (e := last_place (Z.abs (k * b)) (Z.abs b)) in *.
  assert (e <= 0) as He0.
  { destruct Hcase as [Hn|]; [|lia]. destruct (Z.le_gt_cases e 0); [done|].
    rewrite Z.max_r, Z.max_l in Hn by lia. rewrite Z.pow_0_r in Hn.
    assert (2 <= 2 ^ e) by (change 2 with (2 ^ 1) at 1; apply Z.pow_le_mono_r; lia).
    rewrite Z.abs_mul in Hn. nia. }
  rewrite (Z.max_l 0 e), Z.max_r by lia. rewrite Z.pow_0_r, Z.mul_1_r.
  assert (0 < 2 ^ (- e)) as Hp by (apply Z.pow_pos_nonneg; lia).
  assert (round_half_even (Z.abs (k * b) * 2 ^ (- e)) (Z.abs b)
          = Z.abs k * 2 ^ (- e)) as ->.
  { unfold round_half_even. rewrite Z.abs_mul.
    replace (Z.abs k * Z.abs b * 2 ^ (- e)) with (Z.abs k * 2 ^ (- e) * Z.abs b) by ring.
    rewrite Z.mod_mul, Z.div_mul by lia.
    by rewrite (proj2 (Z.ltb_lt _ _)) by lia. }
  apply Qred_complete.
  destruct (Z.leb_spec 0 e).
  - assert (e = 0) as E0 by lia. rewrite E0. simpl (2 ^ (- 0)). simpl (2 ^ 0).
    rewrite !Z.mul_1_r. rewrite Z.sgn_mul.
    replace (Z.sgn k * Z.sgn b * Z.sgn b * Z.abs k) with k; [done|].
    destruct (Z.abs_spec k) as [[? ->]|[? ->]], (Z.sgn_spec b) as [[? ->]|[[? ->]|[? ->]]],
      (Z.sgn_spec k) as [[? ->]|[[? ->]|[? ->]]]; lia.
  - unfold Qeq. cbn [Qnum Qden inject_Z]. rewrite Z2Pos.id by done.
    rewrite Z.sgn_mul.
    replace (Z.sgn k * Z.sgn b * Z.sgn b * (Z.abs k * 2 ^ (- e))) with (k * 2 ^ (- e));
      [lia|].
    destruct (Z.abs_spec k) as [[? ->]|[? ->]], (Z.sgn_spec b) as [[? ->]|[[? ->]|[? ->]]],
      (Z.sgn_spec k) as [[? ->]|[[? ->]|[? ->]]]; lia.
Qed.

End FloatFacts.


(** ** More on the speedups *)

Section SpeedupMore.

Lemma sorted_keys_NoDup {V} (d : gmap nat V) : NoDup (sorted_keys d).
Proof.
  unfold sorted_keys. rewrite merge_sort_Permutation. apply NoDup_elements.
Qed.

Lemma StronglySorted_le_lt l :
  StronglySorted Nat.le l -> NoDup l -> StronglySorted Nat.lt l.
Proof.
  induction 1 as [|x l Hs IH Hall]; intros Hnd; [constructor|].
  apply NoDup_cons in Hnd as [Hx Hnd]. constructor; [by apply IH|].
  rewrite Forall_forall in *. intros y Hy. specialize (Hall y Hy).
  assert (x <> y) by (intros ->; done). unfold Nat.lt. lia.
Qed.

Lemma sorted_keys_baseline {V} (d : gmap nat V) :
  is_Some (d !! 0) -> exists rest, sorted_keys d = 0 :: rest.
Proof.
  intros H0%elem_of_sorted_keys.
  pose proof (sorted_keys_sorted d) as Hs.
  destruct (sorted_keys d) as [|h rest]; [by apply elem_of_nil in H0|].
  apply elem_of_cons in H0 as [<-|H0]; [eauto|].
  inversion Hs as [|? ? _ Hall]; subst. rewrite Forall_forall in Hall.
  specialize (Hall 0 H0). assert (h = 0) as -> by (unfold Nat.le in *; lia). eauto.
Qed.

(** X7.  For every table that has level 0, the levels the speedups are
    computed for are exactly the other levels of the table, in strictly
    ascending order. *)
Theorem speedup_levels_with_baseline data :
  is_Some (data !! 0) ->
  (forall opt, opt ∈ speedup_levels data <-> is_Some (data !! opt) /\ opt <> 0)
  /\ StronglySorted Nat.lt (speedup_levels data).
Proof.
  intros H0. destruct (sorted_keys_baseline data H0) as [rest Hk].
  pose proof (sorted_keys_NoDup data) as Hnd.
  pose proof (StronglySorted_le_lt _ (sorted_keys_sorted data) Hnd) as Hs.
  unfold speedup_levels. rewrite Hk in *. cbn [drop].
  apply NoDup_cons in Hnd as [Hn0 Hnd]. split; [|by inversion Hs].
  intros opt. rewrite <- elem_of_sorted_keys, Hk, elem_of_cons. split.
  - intros Hin. split; [by right|]. by intros ->.
  - by intros [[->|Hin] Hne].
Qed.

Lemma speedup_levels_with_baseline_witness :
  is_Some (ex_table !! 0)
  /\ (1 ∈ speedup_levels ex_table <-> is_Some (ex_table !! 1) /\ 1 <> 0).
Proof.
  assert (is_Some (ex_table !! 0)) as H by (eexists; reflexivity).
  split; [exact H|]. exact (proj1 (speedup_levels_with_baseline ex_table H) 1).
Defined.

(** What the loop over the categories adds to the speedups: one entry for
    each category the baseline row holds, in the order of the loop. *)
Lemma calc_speedups_entries data row0 cats : forall acc sp,
  data !! 0 = Some row0 ->
  foldM (fun speedups category =>
      row0 <-r getitem data 0 ;;
      match row0 !! category with
      | Some baseline =>
          values <-r speedup_row data baseline category (speedup_levels data) ;;
          Ok (speedups ++ [(category, values)])
      | None => Ok speedups
      end) cats acc = Ok sp ->
  exists new,
    sp = acc ++ new
    /\ new.*1 = filter (fun c => is_Some (row0 !! c)) cats
    /\ Forall (fun e => exists b, row0 !! e.1 = Some b
                 /\ speedup_row data b e.1 (speedup_levels data) = Ok e.2) new.
Proof.
  intros acc sp H0. revert acc sp.
  induction cats as [|c cats IH]; intros acc sp; cbn [foldM].
  - intros [= <-]. exists []. by rewrite app_nil_r.
  - unfold getitem at 1. rewrite H0. cbn [rbind].
    destruct (row0 !! c) as [b|] eqn:Hb.
    + destruct (speedup_row data b c (speedup_levels data)) as [vs|e] eqn:Hvs;
        cbn [rbind]; [|done].
      intros (new & -> & Hkeys & Hall)%IH. exists ((c, vs) :: new).
      split; [by rewrite <- app_assoc|]. split.
      * rewrite filter_cons_True by (by rewrite Hb). cbn. by rewrite Hkeys.
      * constructor; [by exists b|done].
    + intros (new & -> & Hkeys & Hall)%IH. exists new.
      split; [done|]. split; [|done].
      rewrite filter_cons_False; [done|]. rewrite Hb. by intros [? ?].
Qed.

Lemma calc_speedups_Ok data sp :
  calc_speedups data = Ok sp ->
  exists row0,
    data !! 0 = Some row0
    /\ sp.*1 = filter (fun c => is_Some (row0 !! c)) speedup_categories
    /\ Forall (fun e => exists b, row0 !! e.1 = Some b
                 /\ speedup_row data b e.1 (speedup_levels data) = Ok e.2) sp.
Proof.
  intros H. destruct (data !! 0) as [row0|] eqn:H0.
  - exists row0. split; [done|].
    by destruct (calc_speedups_entries data row0 _ _ _ H0 H) as (new & -> & ? & ?).
  - unfold calc_speedups in H. cbn [foldM speedup_categories] in H.
    unfold getitem at 1 in H. by rewrite H0 in H.
Qed.

(** X8.  When the speedup computation succeeds, the table has a row for
    level 0 and the speedups hold one entry for each category of that
    row, in the fixed order interpreter, native, gcc, clang (not in the
    order the report listed them). *)
Theorem speedups_follow_category_order data speedups :
  calc_speedups data = Ok speedups ->
  exists row0,
    data !! 0 = Some row0
    /\ speedups.*1 = filter (fun c => is_Some (row0 !! c)) speedup_categories.
Proof.
  intros (row0 & H0 & Hk & _)%calc_speedups_Ok. eauto.
Qed.

Lemma speedups_follow_category_order_witness :
  exists speedups,
    calc_speedups {[ 0 := {[ "clang" := 8%Z; "native" := 6%Z ]};
                     3 := {[ "native" := 3%Z; "clang" := 4%Z ]} ]} = Ok speedups
    /\ speedups.*1 = ["native"; "clang"].
Proof.
  destruct (calc_speedups {[ 0 := {[ "clang" := 8%Z; "native" := 6%Z ]};
                             3 := {[ "native" := 3%Z; "clang" := 4%Z ]} ]})
    as [speedups|] eqn:H; [|vm_compute in H; discriminate].
  exists speedups. split; [reflexivity|].
  destruct (speedups_follow_category_order _ _ H) as (row0 & H0 & ->).
  vm_compute in H0. injection H0 as <-. vm_compute. reflexivity.
Defined.

(** X9.  When the speedup computation succeeds, the entry of a category
    at a level whose cell holds the time [t] is a float [q] for the
    quotient of the category's time at level 0, the baseline, by [t]:
    [t] is not 0, the quotient is below the overflow threshold, the
    rounding error |q * t - baseline| is at most
    |baseline| / 2^53 + |t| / 2^1075, and [q] is the exact quotient when
    [t] divides the baseline with a quotient below 2^53. *)
Theorem speedup_entry_is_rounded_ratio data speedups category values i opt t :
  calc_speedups data = Ok speedups ->
  (category, values) ∈ speedups ->
  speedup_levels data !! i = Some opt ->
  cell data opt category = Some t ->
  exists baseline q,
    cell data 0 category = Some baseline
    /\ t <> 0%Z
    /\ (Z.abs baseline < float_overflow * Z.abs t)%Z
    /\ values !! i = Some (PyFloat q)
    /\ (Qabs (q * inject_Z t - inject_Z baseline)
        <= Qabs (inject_Z baseline) / inject_Z (2 ^ 53)
           + Qabs (inject_Z t) / inject_Z (2 ^ 1075))%Q
    /\ forall k, baseline = (k * t)%Z -> (Z.abs k < 2 ^ 53)%Z -> q = inject_Z k.
Proof.
  intros (row0 & H0 & _ & Hall)%calc_speedups_Ok Hin Hi Ht.
  rewrite Forall_forall in Hall. destruct (Hall _ Hin) as (b & Hb & Hrow).
  cbn [fst snd] in *.
  unfold speedup_row in Hrow. apply mapM_Ok in Hrow as [_ Hrow].
  destruct (Hrow i opt Hi) as (v & Hv & Hf).
  unfold cell, getitem in *. destruct (data !! opt) as [row|]; [|done].
  cbn [rbind mbind option_bind] in *. rewrite Ht in Hf. unfold true_div in Hf.
  destruct (t =? 0)%Z eqn:Et; [done|]. apply Z.eqb_neq in Et.
  destruct (Z.leb_spec (float_overflow * Z.abs t) (Z.abs b)) as [|Hlt]; [done|].
  injection Hf as <-.
  exists b, (binary64_of_quotient b t).
  rewrite H0. split; [done|]. split; [done|]. split; [done|]. split; [done|].
  split; [by apply binary64_of_quotient_error|].
  intros k -> Hk. by apply binary64_of_quotient_exact.
Qed.

Lemma speedup_entry_is_rounded_ratio_witness :
  exists baseline,
    cell ex_table 0 "interpreter" = Some baseline
    /\ [PyFloat 2] !! 0 = Some (PyFloat (inject_Z 2)).
Proof.
  destruct (speedup_entry_is_rounded_ratio ex_table
              [("interpreter", [PyFloat 2]); ("native", [PyInt 0])]
              "interpreter" [PyFloat 2] 0 1 10000%Z)
    as (baseline & q & H1 & _ & _ & H2 & _ & H3);
    [vm_compute; reflexivity | left | vm_compute; reflexivity
    | vm_compute; reflexivity |].
  exists baseline. split; [exact H1|].
  rewrite <- (H3 2%Z); [exact H2 | | reflexivity].
  vm_compute in H1. by injection H1 as <-.
Defined.

(** X10.  For a table whose level-0 row holds none of the four
    categories, the speedups are empty and [create_speedup_chart] raises
    [ZeroDivisionError]: the bar width divides by the number of
    categories. *)
Theorem speedup_chart_needs_a_category data row0 title filename :
  data !! 0 = Some row0 ->
  (forall category, category ∈ speedup_categories -> row0 !! category = None) ->
  calc_speedups data = Ok []
  /\ create_speedup_chart data title filename = Raise ZeroDivisionError.
Proof.
  intros H0 Hnone.
  assert (calc_speedups data = Ok []) as Hc.
  { unfold calc_speedups, speedup_categories, getitem. cbn [foldM].
    rewrite H0. cbn [rbind].
    rewrite !Hnone; [done|..]; unfold speedup_categories; set_solver. }
  split; [done|]. unfold create_speedup_chart. by rewrite Hc.
Qed.

Lemma speedup_chart_needs_a_category_witness :
  let data : gmap nat (gmap string Z) :=
    {[ 0 := ∅; 1 := {[ "native" := 5%Z ]} ]} in
  data !! 0 = Some ∅
  /\ create_speedup_chart data "title" "speedup.png" = Raise ZeroDivisionError.
Proof.
  intros data. split; [reflexivity|].
  apply (speedup_chart_needs_a_category data ∅ "title" "speedup.png");
    [reflexivity|]. intros category _. apply lookup_empty.
Defined.
End SpeedupMore.

(** ** The speedup chart *)

Section SpeedupChart.

Lemma getitem_Ok `{Countable K} {V} (d : gmap K V) k v :
  getitem d k = Ok v -> d !! k = Some v.
Proof. unfold getitem. destruct (d !! k); [by intros [= ->]|done]. Qed.

Lemma speedup_calls_ok_app sp ax x v w label color category values i :
  speedup_calls_ok sp ax ->
  is_zero v = false -> (category, values) ∈ sp -> values !! i = Some v ->
  colors !! category = Some color ->
  speedup_calls_ok sp (ax ++ [Bar x v w label color; Annotate (OneDecimalX v) x v]).
Proof.
  intros Hax Hz Hin Hv Hc x' v' w' l' c' [Hb|Hb]%elem_of_app.
  - destruct (Hax _ _ _ _ _ Hb) as (H1 & H2 & H3).
    split; [done|]. split; [|done]. apply elem_of_app. by left.
  - apply elem_of_cons in Hb as [Hb|Hb];
      [|apply list_elem_of_singleton in Hb; discriminate].
    injection Hb as -> -> -> -> ->. split; [done|]. split.
    + apply elem_of_app. right. right. left.
    + by exists category, values, i.
Qed.

(** X11.  In every speedup chart that is drawn, each bar shows a
    non-zero entry of the speedups, in the colour of the entry's
    category, and has its annotation at the same position and height. *)
Theorem speedup_chart_bars data title filename ch :
  create_speedup_chart data title filename = Ok ch ->
  exists speedups,
    calc_speedups data = Ok speedups
    /\ forall x v w label color,
         Bar x v w label color ∈ chart_calls ch ->
         is_zero v = false
         /\ Annotate (OneDecimalX v) x v ∈ chart_calls ch
         /\ exists category values i,
              (category, values) ∈ speedups
              /\ values !! i = Some v
              /\ colors !! category = Some color.
Proof.
  unfold create_speedup_chart.
  destruct (calc_speedups data) as [sp|] eqn:Hsp; cbn [rbind]; [|done].
  destruct (bar_width_of (length sp)) as [bw|]; cbn [rbind]; [|done].
  match goal with
  | |- context [foldM ?f ?l []] => destruct (foldM f l []) as [ax|] eqn:Hax
  end; cbn [rbind]; [|done].
  intros [= <-]. exists sp. split; [done|]. cbn [chart_calls].
  change (speedup_calls_ok sp ax).
  eapply (foldM_invariant _ (speedup_calls_ok sp)); [| |exact Hax].
  2: { intros x v w l c Hin. by apply elem_of_nil in Hin. }
  intros ax1 [i opt] ax2 _ H1.
  apply foldM_invariant; [|done].
  intros ax3 [j [category values]] ax4 Hj%elem_of_enumerate H3.
  apply list_elem_of_lookup_2 in Hj.
  destruct (values !! i) as [value|] eqn:Hv; [|by intros [= <-]].
  destruct (is_zero value) eqn:Hz; [by intros [= <-]|].
  destruct (if (i =? 0)%nat then getitem labels category else Ok "")
    as [label|]; cbn [rbind]; [|done].
  destruct (getitem colors category) as [color|] eqn:Hc; cbn [rbind]; [|done].
  intros [= <-]. apply getitem_Ok in Hc. by eapply speedup_calls_ok_app.
Qed.

Lemma speedup_chart_bars_witness :
  exists ch,
    create_speedup_chart ex_table "title" "speedup.png" = Ok ch
    /\ forall x v w label color,
         Bar x v w label color ∈ chart_calls ch -> is_zero v = false.
Proof.
  destruct (create_speedup_chart ex_table "title" "speedup.png") as [ch|] eqn:H;
    [|vm_compute in H; discriminate].
  exists ch. split; [reflexivity|].
  destruct (speedup_chart_bars _ _ _ _ H) as (speedups & _ & Hbars).
  intros x v w label color Hin. exact (proj1 (Hbars x v w label color Hin)).
Defined.

(** With at least one category among the speedups, drawing them does not
    raise. *)
Lemma speedup_chart_draws data sp title filename :
  calc_speedups data = Ok sp -> sp <> [] ->
  exists ch, create_speedup_chart data title filename = Ok ch.
Proof.
  intros Hsp Hne. unfold create_speedup_chart. rewrite Hsp. cbn [rbind].
  unfold bar_width_of. destruct (length sp =? 0)%nat eqn:El.
  { apply Nat.eqb_eq in El. by destruct sp. }
  cbn [rbind].
  apply calc_speedups_Ok in Hsp as (row0 & H0 & Hkeys & _).
  match goal with
  | |- context [foldM ?f ?l []] => destruct (foldM_total f l []) as [ax ->]
  end; [|cbn [rbind]; eauto].
  intros ax [i opt] _. apply foldM_total.
  intros ax' [j [category values]] Hj%elem_of_enumerate.
  apply list_elem_of_lookup_2 in Hj.
  assert (category ∈ bar_categories true) as Hcat.
  { assert (category ∈ sp.*1) as Hin
      by (apply list_elem_of_fmap; by exists (category, values)).
    rewrite Hkeys in Hin. by apply list_elem_of_filter in Hin as [_ Hin]. }
  destruct (bar_categories_styled true category Hcat) as [Hl Hc].
  destruct (values !! i) as [value|]; [|eauto].
  destruct (is_zero value); [eauto|].
  rewrite Hc. destruct (i =? 0)%nat; [rewrite Hl|]; cbn [rbind]; eauto.
Qed.

(** X12.  For a table built by [parse_section], a successful speedup
    computation has at least one category, and the speedup chart is then
    drawn without an exception. *)
Theorem parsed_speedup_chart_draws section data speedups title filename :
  parse_section section = Ok data ->
  calc_speedups data = Ok speedups ->
  speedups <> []
  /\ exists ch, create_speedup_chart data title filename = Ok ch.
Proof.
  intros Hp Hsp.
  assert (speedups <> []) as Hne.
  { destruct (calc_speedups_Ok _ _ Hsp) as (row0 & H0 & Hkeys & _).
    destruct (parse_section_shape _ _ Hp 0 row0 H0) as (_ & Hrow & Hcats).
    apply map_choose in Hrow as (c & t & Hc).
    destruct (Hcats c t Hc) as [Hin _].
    intros ->.
    assert (c ∈ filter (fun c => is_Some (row0 !! c)) speedup_categories) as Hf
      by (apply list_elem_of_filter; eauto).
    rewrite <- Hkeys in Hf. cbn [fmap list_fmap] in Hf. by apply elem_of_nil in Hf. }
  split; [done|]. by eapply speedup_chart_draws.
Qed.

Lemma parsed_speedup_chart_draws_witness :
  exists data speedups ch,
    parse_section "compile -O0 8ms compile -O1 4ms" = Ok data
    /\ calc_speedups data = Ok speedups
    /\ create_speedup_chart data "title" "speedup.png" = Ok ch.
Proof.
  destruct (parse_section "compile -O0 8ms compile -O1 4ms") as [data|] eqn:Hp;
    [|vm_compute in Hp; discriminate].
  destruct (calc_speedups data) as [speedups|] eqn:Hs.
  - destruct (parsed_speedup_chart_draws _ _ _ "title" "speedup.png" Hp Hs)
      as [_ [ch Hch]].
    exists data, speedups, ch. split; [reflexivity|]. split; [exact Hs|exact Hch].
  - exfalso. vm_compute in Hp. injection Hp as <-. vm_compute in Hs. discriminate.
Defined.
End SpeedupChart.

(** ** More on the bar chart *)

Section BarChartMore.

Lemma bars_in_groups {A} (g : A -> list call) k l :
  (forall x, x ∈ l -> length (filter (fun c => is_bar c) (g x)) = k) ->
  length (filter (fun c => is_bar c) (mjoin (g <$> l))) = length l * k.
Proof.
  induction l as [|x l IH]; intros Hk; [done|].
  rewrite fmap_cons. change (mjoin (g x :: (g <$> l))) with (g x ++ mjoin (g <$> l)).
  cbn [length]. rewrite filter_app, length_app.
  rewrite Hk by left. rewrite IH; [lia|]. intros y Hy. apply Hk. by right.
Qed.

Lemma length_enumerate {A} (l : list A) : length (enumerate l) = length l.
Proof. apply length_imap. Qed.

Lemma length_sorted_keys {V} (d : gmap nat V) : length (sorted_keys d) = size d.
Proof.
  unfold sorted_keys. rewrite merge_sort_Permutation.
  change (size (dom d) = size d). apply size_dom.
Qed.

(** X13.  Whenever [create_bar_chart] returns a chart, the chart has one
    bar for each pair of a level of the table and a category of the
    chart, absent cells included, and one tick label per level. *)
Theorem bar_chart_bar_count data title filename yticks include_interpreter ch :
  create_bar_chart data title filename yticks include_interpreter = Ok ch ->
  length (filter (fun c => is_bar c) (chart_calls ch))
  = size data * length (bar_categories include_interpreter)
  /\ length (chart_xticklabels ch) = size data.
Proof.
  intros (Hcalls & Hticks & _)%bar_chart_Ok. split.
  - rewrite Hcalls.
    rewrite (bars_in_groups _ (length (bar_categories include_interpreter))).
    + by rewrite length_enumerate, length_sorted_keys.
    + intros [i opt] _.
      rewrite (bars_in_groups _ 1); [rewrite length_enumerate; lia|].
      intros [j cat] _. unfold bar_cell. rewrite filter_cons_True by done.
      destruct (0 <? _)%Z; [|done]. by rewrite filter_cons_False by (by intros ?).
  - by rewrite Hticks, length_fmap, length_sorted_keys.
Qed.

Lemma bar_chart_bar_count_witness :
  exists ch,
    create_bar_chart ex_table "title" "all.png" [] true = Ok ch
    /\ length (filter (fun c => is_bar c) (chart_calls ch)) = 8
    /\ length (chart_xticklabels ch) = 2.
Proof.
  destruct (create_bar_chart ex_table "title" "all.png" [] true) as [ch|] eqn:H;
    [|vm_compute in H; discriminate].
  exists ch. split; [reflexivity|].
  exact (bar_chart_bar_count ex_table "title" "all.png" [] true ch H).
Defined.

(** X14.  Every bar of a bar chart belongs to one level and one category
    of the chart: it stands at that pair's position, has the cell's time
    (0 when absent) as height and the category's colour; it carries the
    category's legend label in the first group and an empty label in all
    the others. *)
Theorem bar_chart_legend data title filename yticks include_interpreter ch :
  create_bar_chart data title filename yticks include_interpreter = Ok ch ->
  let categories := bar_categories include_interpreter in
  let n := length categories in
  let bw := (group_width / inject_Z (Z.of_nat n))%Q in
  forall x v w label color,
    Bar x v w label color ∈ chart_calls ch ->
    exists i opt j category,
      sorted_keys data !! i = Some opt
      /\ categories !! j = Some category
      /\ x = x_pos n bw i j
      /\ v = PyInt (default 0%Z (cell data opt category))
      /\ colors !! category = Some color
      /\ (i = 0 -> labels !! category = Some label)
      /\ (i <> 0 -> label = "").
Proof.
  intros Hch categories n bw x v w label color Hin.
  apply bar_chart_Ok in Hch as [Hcalls _]. rewrite Hcalls in Hin.
  apply elem_of_bar_calls in Hin as (i & opt & j & cat & Hi & Hj & Hin).
  exists i, opt, j, cat. split; [done|]. split; [done|].
  destruct (bar_categories_styled include_interpreter cat) as [Hl Hc];
    [by eapply list_elem_of_lookup_2|].
  apply getitem_Ok in Hl, Hc.
  unfold bar_cell in Hin. apply elem_of_cons in Hin as [Hin|Hin].
  - injection Hin as -> -> _ -> ->. split; [done|]. split; [done|].
    split; [done|]. split; [by intros ->|].
    intros Hne. by destruct i.
  - destruct (0 <? _)%Z; [|by apply elem_of_nil in Hin].
    apply list_elem_of_singleton in Hin. discriminate.
Qed.

Lemma bar_chart_legend_witness :
  exists ch,
    create_bar_chart ex_table "title" "all.png" [] false = Ok ch
    /\ forall x v w label color,
         Bar x v w label color ∈ chart_calls ch ->
         exists category, category ∈ bar_categories false
                          /\ colors !! category = Some color.
Proof.
  destruct (create_bar_chart ex_table "title" "all.png" [] false) as [ch|] eqn:H;
    [|vm_compute in H; discriminate].
  exists ch. split; [reflexivity|]. intros x v w label color Hin.
  destruct (bar_chart_legend _ _ _ _ _ _ H x v w label color Hin)
    as (i & opt & j & category & _ & Hj & _ & _ & Hc & _).
  exists category. split; [|exact Hc]. by eapply list_elem_of_lookup_2.
Defined.

(** X18.  In a bar chart that [create_bar_chart] returns, a cell whose
    time is 0 (or less) has a bar of that height and no annotation at
    its position, as an absent cell does. *)
Theorem zero_time_bar_unlabelled data title filename yticks include_interpreter ch
    i opt j category v :
  create_bar_chart data title filename yticks include_interpreter = Ok ch ->
  sorted_keys data !! i = Some opt ->
  bar_categories include_interpreter !! j = Some category ->
  cell data opt category = Some v ->
  (v <= 0)%Z ->
  let n := length (bar_categories include_interpreter) in
  let bw := (group_width / inject_Z (Z.of_nat n))%Q in
  (exists label color,
     Bar (x_pos n bw i j) (PyInt v) (bw - (2 # 100))%Q label color
     ∈ chart_calls ch)
  /\ forall t y, Annotate t (x_pos n bw i j) y ∉ chart_calls ch.
Proof.
  intros [Hcalls _]%bar_chart_Ok Hi Hj Hv Hle n bw. rewrite Hcalls.
  destruct (bar_calls_of_cell data include_interpreter i opt j category Hi Hj)
    as (Hbar & _ & Hnone).
  rewrite Hv in Hbar, Hnone. split; [exact Hbar|]. by apply Hnone.
Qed.

Lemma zero_time_bar_unlabelled_witness :
  let data : gmap nat (gmap string Z) := {[ 0 := {[ "native" := 0%Z ]} ]} in
  exists ch,
    create_bar_chart data "title" "all.png" [] false = Ok ch
    /\ forall t y,
         Annotate t (x_pos 3 (group_width / inject_Z 3) 0 0) y ∉ chart_calls ch.
Proof.
  intros data.
  destruct (create_bar_chart data "title" "all.png" [] false) as [ch|] eqn:H;
    [|vm_compute in H; discriminate].
  exists ch. split; [reflexivity|].
  destruct (zero_time_bar_unlabelled data "title" "all.png" [] false ch
              0 0 0 "native" 0%Z H) as [_ Hno];
    [vm_compute; reflexivity | reflexivity | reflexivity | lia |].
  exact Hno.
Defined.

End BarChartMore.

(** ** The run as a whole *)

Section ScriptFacts.

Lemma bar_chart_file data title filename yticks b ch :
  create_bar_chart data title filename yticks b = Ok ch ->
  chart_file ch = path_join save_dir filename.
Proof. by intros (_ & _ & -> & _)%bar_chart_Ok. Qed.

Lemma speedup_chart_file data title filename ch :
  create_speedup_chart data title filename = Ok ch ->
  chart_file ch = path_join save_dir filename.
Proof.
  unfold create_speedup_chart.
  destruct (calc_speedups data); cbn [rbind]; [|done].
  destruct (bar_width_of _); cbn [rbind]; [|done].
  destruct (foldM _ _ _); cbn [rbind]; [|done]. by intros [= <-].
Qed.

Lemma speedup_chart_KeyError data title filename :
  data !! 0 = None -> create_speedup_chart data title filename = Raise KeyError.
Proof.
  intros H0. unfold create_speedup_chart, calc_speedups. cbn [foldM speedup_categories].
  unfold getitem at 1. by rewrite H0.
Qed.

(** The run once both tables are built: the six charts in turn, up to
    the first that raises. *)
Lemma script_charts content x86 riscv x86_data riscv_data :
  x86_section content = Ok x86 -> riscv_section content = Ok riscv ->
  parse_section x86 = Ok x86_data -> parse_section riscv = Ok riscv_data ->
  run_script content =
  match create_bar_chart x86_data "Mandelbrot.b runtime on x86_64 (Zen2 4.4GHz)"
          "benchmark_x86_all.png" (arange 22000 2000) true with
  | Raise e => ([], Raise e)
  | Ok c1 =>
  match create_bar_chart x86_data "Mandelbrot.b runtime on x86_64 (Zen2 4.4GHz)"
          "benchmark_x86_compiled.png" (arange 2300 250) false with
  | Raise e => ([c1], Raise e)
  | Ok c2 =>
  match create_bar_chart riscv_data "Mandelbrot.b runtime on riscv64 (Ky X1 1.6GHz)"
          "benchmark_riscv_all.png" (arange 120000 10000) true with
  | Raise e => ([c1; c2], Raise e)
  | Ok c3 =>
  match create_bar_chart riscv_data "Mandelbrot.b runtime on riscv64 (Ky X1 1.6GHz)"
          "benchmark_riscv_compiled.png" (arange 12000 1000) false with
  | Raise e => ([c1; c2; c3], Raise e)
  | Ok c4 =>
  match create_speedup_chart x86_data
          "Relative Speedup to Optimization Level O0 on x86_64"
          "benchmark_x86_speedup.png" with
  | Raise e => ([c1; c2; c3; c4], Raise e)
  | Ok c5 =>
  match create_speedup_chart riscv_data
          "Relative Speedup to Optimization Level O0 on riscv64"
          "benchmark_riscv_speedup.png" with
  | Raise e => ([c1; c2; c3; c4; c5], Raise e)
  | Ok c6 => ([c1; c2; c3; c4; c5; c6], Ok tt)
  end end end end end end.
Proof.
  intros Hx Hr Hpx Hpr.
  unfold run_script, script, pbind, lift, savefig. rewrite Hx, Hr, Hpx, Hpr.
  repeat match goal with
         | |- context [match ?r with Ok _ => _ | Raise _ => _ end] =>
             is_var r || (destruct r; [|reflexivity])
         end.
  reflexivity.
Qed.

Lemma drawable_fewer data b : drawable data true -> drawable data b.
Proof.
  intros Hd opt cat t Hcat. apply Hd.
  destruct b; [done|]. by right.
Qed.

Lemma bar_chart_drawable data title filename yticks b :
  drawable data true ->
  exists ch, create_bar_chart data title filename yticks b = Ok ch.
Proof.
  intros Hd%(drawable_fewer _ b).
  by destruct (bar_chart_cases data title filename yticks b) as [[_ ?]|[? _]].
Qed.

(** X15.  Whatever the report, the images a run has written are the first
    few of the six output files, in their fixed order, and the run ends
    without an exception exactly when all six are written. *)
Theorem script_writes_in_order content saved r :
  run_script content = (saved, r) ->
  chart_file <$> saved `prefix_of` chart_files
  /\ (r = Ok tt <-> chart_file <$> saved = chart_files).
Proof.
  assert (forall e : exn, Raise e = Ok tt <-> [] = chart_files) as Hnil
    by (intros e; split; discriminate).
  destruct (x86_section content) as [x86|e] eqn:Hx.
  2: { unfold run_script, script, pbind, lift. rewrite Hx. intros [= <- <-].
       split; [by eexists|apply Hnil]. }
  destruct (riscv_section content) as [riscv|e] eqn:Hr.
  2: { unfold run_script, script, pbind, lift. rewrite Hx, Hr. intros [= <- <-].
       split; [by eexists|apply Hnil]. }
  destruct (parse_section x86) as [x86_data|e] eqn:Hpx.
  2: { unfold run_script, script, pbind, lift. rewrite Hx, Hr, Hpx.
       intros [= <- <-]. split; [by eexists|apply Hnil]. }
  destruct (parse_section riscv) as [riscv_data|e] eqn:Hpr.
  2: { unfold run_script, script, pbind, lift. rewrite Hx, Hr, Hpx, Hpr.
       intros [= <- <-]. split; [by eexists|apply Hnil]. }
  rewrite (script_charts content _ _ _ _ Hx Hr Hpx Hpr).
  destruct (create_bar_chart x86_data _ "benchmark_x86_all.png" _ _)
    as [c1|e] eqn:H1.
  2: { intros [= <- <-]. split; [by eexists|apply Hnil]. }
  apply bar_chart_file in H1.
  destruct (create_bar_chart x86_data _ "benchmark_x86_compiled.png" _ _)
    as [c2|e] eqn:H2.
  2: { intros [= <- <-]. cbn [fmap list_fmap]. rewrite H1.
       split; [by eexists|]. split; discriminate. }
  apply bar_chart_file in H2.
  destruct (create_bar_chart riscv_data _ "benchmark_riscv_all.png" _ _)
    as [c3|e] eqn:H3.
  2: { intros [= <- <-]. cbn [fmap list_fmap]. rewrite H1, H2.
       split; [by eexists|]. split; discriminate. }
  apply bar_chart_file in H3.
  destruct (create_bar_chart riscv_data _ "benchmark_riscv_compiled.png" _ _)
    as [c4|e] eqn:H4.
  2: { intros [= <- <-]. cbn [fmap list_fmap]. rewrite H1, H2, H3.
       split; [by eexists|]. split; discriminate. }
  apply bar_chart_file in H4.
  destruct (create_speedup_chart x86_data _ _) as [c5|e] eqn:H5.
  2: { intros [= <- <-]. cbn [fmap list_fmap]. rewrite H1, H2, H3, H4.
       split; [by eexists|]. split; discriminate. }
  apply speedup_chart_file in H5.
  destruct (create_speedup_chart riscv_data _ _) as [c6|e] eqn:H6.
  2: { intros [= <- <-]. cbn [fmap list_fmap]. rewrite H1, H2, H3, H4, H5.
       split; [by eexists|]. split; discriminate. }
  apply speedup_chart_file in H6.
  intros [= <- <-]. cbn [fmap list_fmap]. rewrite H1, H2, H3, H4, H5, H6.
  split; [by exists []|]. done.
Qed.

Lemma script_writes_in_order_witness :
  exists saved,
    run_script "x86_64 compile -O0 8ms compile -O1 4ms
riscv64 compile -O0 9ms compile -O1 3ms" = (saved, Ok tt)
    /\ chart_file <$> saved = chart_files.
Proof.
  destruct (run_script "x86_64 compile -O0 8ms compile -O1 4ms
riscv64 compile -O0 9ms compile -O1 3ms") as [saved r] eqn:H.
  assert (r = Ok tt) as -> by (vm_compute in H; congruence).
  exists saved. split; [reflexivity|].
  apply (proj2 (script_writes_in_order _ _ _ H)). reflexivity.
Defined.

(** X16.  When both sections parse into tables whose times all fit a
    signed 64-bit integer and the x86_64 table has no level 0, the run
    writes the four bar charts and then ends in [KeyError], raised by the
    first speedup chart. *)
Theorem script_partial_output content x86 riscv x86_data riscv_data :
  x86_section content = Ok x86 -> riscv_section content = Ok riscv ->
  parse_section x86 = Ok x86_data -> parse_section riscv = Ok riscv_data ->
  drawable x86_data true -> drawable riscv_data true ->
  x86_data !! 0 = None ->
  exists c1 c2 c3 c4,
    run_script content = ([c1; c2; c3; c4], Raise KeyError)
    /\ chart_file <$> [c1; c2; c3; c4] = take 4 chart_files.
Proof.
  intros Hx Hr Hpx Hpr Hdx Hdr H0.
  rewrite (script_charts content _ _ _ _ Hx Hr Hpx Hpr).
  destruct (bar_chart_drawable x86_data "Mandelbrot.b runtime on x86_64 (Zen2 4.4GHz)"
              "benchmark_x86_all.png" (arange 22000 2000) true Hdx) as [c1 H1].
  destruct (bar_chart_drawable x86_data "Mandelbrot.b runtime on x86_64 (Zen2 4.4GHz)"
              "benchmark_x86_compiled.png" (arange 2300 250) false Hdx) as [c2 H2].
  destruct (bar_chart_drawable riscv_data "Mandelbrot.b runtime on riscv64 (Ky X1 1.6GHz)"
              "benchmark_riscv_all.png" (arange 120000 10000) true Hdr) as [c3 H3].
  destruct (bar_chart_drawable riscv_data "Mandelbrot.b runtime on riscv64 (Ky X1 1.6GHz)"
              "benchmark_riscv_compiled.png" (arange 12000 1000) false Hdr) as [c4 H4].
  rewrite H1, H2, H3, H4, speedup_chart_KeyError by done.
  exists c1, c2, c3, c4. split; [done|].
  apply bar_chart_file in H1, H2, H3, H4.
  cbn [fmap list_fmap]. by rewrite H1, H2, H3, H4.
Qed.

Lemma script_partial_output_witness :
  exists c1 c2 c3 c4,
    run_script "x86_64 compile -O1 8ms riscv64 compile -O0 9ms"
    = ([c1; c2; c3; c4], Raise KeyError).
Proof.
  destruct (script_partial_output "x86_64 compile -O1 8ms riscv64 compile -O0 9ms"
              "x86_64 compile -O1 8ms " "riscv64 compile -O0 9ms"
              {[ 1 := {[ "native" := 8%Z ]} ]} {[ 0 := {[ "native" := 9%Z ]} ]})
    as (c1 & c2 & c3 & c4 & H & _);
    [vm_compute; reflexivity | vm_compute; reflexivity | vm_compute; reflexivity
    | vm_compute; reflexivity
    | apply drawable_rows, (bool_decide_unpack _); vm_compute; reflexivity
    | apply drawable_rows, (bool_decide_unpack _); vm_compute; reflexivity
    | reflexivity |].
  exists c1, c2, c3, c4. exact H.
Defined.

(** X19.  When both sections parse and the x86_64 table holds a time
    that does not fit a signed 64-bit integer, the run ends in
    [OverflowError], raised by the first bar chart, with no image
    written. *)
Theorem script_overflow_writes_nothing content x86 riscv x86_data riscv_data :
  x86_section content = Ok x86 -> riscv_section content = Ok riscv ->
  parse_section x86 = Ok x86_data -> parse_section riscv = Ok riscv_data ->
  ~ drawable x86_data true ->
  run_script content = ([], Raise OverflowError).
Proof.
  intros Hx Hr Hpx Hpr Hd.
  rewrite (script_charts content _ _ _ _ Hx Hr Hpx Hpr).
  destruct (bar_chart_cases x86_data "Mandelbrot.b runtime on x86_64 (Zen2 4.4GHz)"
              "benchmark_x86_all.png" (arange 22000 2000) true)
    as [[? _]|[_ ->]]; done.
Qed.

Lemma script_overflow_writes_nothing_witness :
  run_script "x86_64 compile -O1 9223372036854775808ms riscv64 compile -O0 9ms"
  = ([], Raise OverflowError).
Proof.
  apply (script_overflow_writes_nothing
           "x86_64 compile -O1 9223372036854775808ms riscv64 compile -O0 9ms"
           "x86_64 compile -O1 9223372036854775808ms " "riscv64 compile -O0 9ms"
           {[ 1 := {[ "native" := (2 ^ 63)%Z ]} ]} {[ 0 := {[ "native" := 9%Z ]} ]});
    [vm_compute; reflexivity | vm_compute; reflexivity | vm_compute; reflexivity
    | vm_compute; reflexivity |].
  intros Hd. specialize (Hd 1 "native" (2 ^ 63)%Z).
  assert (- 2 ^ 63 <= 2 ^ 63 < 2 ^ 63)%Z as [_ H]; [|lia].
  apply Hd; [right; left | reflexivity].
Defined.

(** X17.  When either section holds a matched line whose description
    fails to classify, the run ends in [ValueError] with no image
    written. *)
Theorem script_bad_line_writes_nothing content x86 riscv m :
  x86_section content = Ok x86 -> riscv_section content = Ok riscv ->
  m ∈ findall pattern x86 \/ m ∈ findall pattern riscv ->
  classify m.1 = Raise ValueError ->
  run_script content = ([], Raise ValueError).
Proof.
  intros Hx Hr Hm Hbad.
  unfold run_script, script, pbind, lift. rewrite Hx, Hr.
  destruct (parse_section x86) as [x86_data|e] eqn:Hpx.
  - destruct Hm as [Hm|Hm].
    + rewrite (parse_section_bad_line x86 m Hm Hbad) in Hpx. done.
    + by rewrite (parse_section_bad_line riscv m Hm Hbad).
  - by apply parse_section_Raise in Hpx as [-> _].
Qed.

Lemma script_bad_line_writes_nothing_witness :
  run_script "x86_64 compile -O0 8ms
riscv64 compile -O0 9ms gcc -O2 3ms" = ([], Raise ValueError).
Proof.
  apply (script_bad_line_writes_nothing _ "x86_64 compile -O0 8ms
" "riscv64 compile -O0 9ms gcc -O2 3ms" ("gcc -O2", "3"));
    [vm_compute; reflexivity | vm_compute; reflexivity | | reflexivity].
  right. vm_compute findall. right. left.
Defined.
End ScriptFacts.
